(** * WhatsApp identifier resolution ([src/whatsapp/utils.ts])

    A shallow embedding of the JID / E.164 helpers of [src/whatsapp/utils.ts]
    and the properties the specification states about them: the conversion of
    a phone number to a JID ([toWhatsappJid]), the decode of a JID
    ([jidToE164]) with its lookup of LID reverse-mapping files in a priority
    list of directories ([resolveLidMappingDirs], [readLidReverseMapping]),
    and the resolver that falls back to an injected lookup
    ([resolveJidToE164]).

    Conventions of the embedding.
    - A JavaScript string is a [string]: the sequence of the bytes of its
      UTF-8 encoding.  Every operation the module applies to strings (the
      anchored regular expressions over ASCII characters, [includes],
      [replace] of non-digits, [trim], concatenation) is modelled on that
      encoding.
    - A function that may throw returns a [Result]; a function that also
      touches the outside world (file reads, verbose log lines, the injected
      lookup) returns a [Run]: the events it performed, in order, and how it
      ended.  A rejected promise is a [Throw].  A lookup capability is
      modelled by what its promise settles to: a promise that never settles
      has no [Run], and nothing here is said of it.
    - The collaborators that live outside this file ([normalizeE164],
      [resolveUserPath], [resolveOAuthDir], [CONFIG_DIR], the logging switch)
      and the platform ([fs], [path.join], [JSON.parse]) are the fields of the
      class [Env].  The normalizer may throw; the path and configuration
      queries are total, as the specification describes them. *)

From Stdlib Require Import Ascii String Bool Arith Lia.
From stdpp Require Import base option list strings gmap.

#[local] Arguments String.append !s1 s2 : simpl nomatch.
#[local] Set Warnings "-register-all,-clear-no-such-hyp".

(** ** Strings *)

Module Js.

(** [\d]: an ASCII decimal digit. *)
Definition is_digit (c : ascii) : bool :=
  (48 <=? nat_of_ascii c) && (nat_of_ascii c <=? 57).

Fixpoint all_digits (s : string) : bool :=
  match s with
  | EmptyString => true
  | String c s' => is_digit c && all_digits s'
  end.

(** A digit sequence as [\d+] reads it: one digit or more. *)
Definition digit_string (s : string) : bool :=
  negb (String.eqb s "") && all_digits s.

(** The greedy [\d*]: the longest run of digits at the start and what follows. *)
Fixpoint span_digits (s : string) : string * string :=
  match s with
  | String c s' =>
      if is_digit c then let '(d, r) := span_digits s' in (String c d, r)
      else (EmptyString, s)
  | EmptyString => (EmptyString, EmptyString)
  end.

(** What follows a maximal run of digits: nothing, or a character that is no
    digit. *)
Definition no_digit_ahead (s : string) : Prop :=
  match s with
  | EmptyString => True
  | String c _ => is_digit c = false
  end.

(** [s.replace(/\D/g, "")]. *)
Fixpoint remove_non_digits (s : string) : string :=
  match s with
  | EmptyString => EmptyString
  | String c s' =>
      if is_digit c then String c (remove_non_digits s') else remove_non_digits s'
  end.

(** [s.includes(c)] for a one-character needle. *)
Fixpoint includes (c : ascii) (s : string) : bool :=
  match s with
  | EmptyString => false
  | String c' s' => Ascii.eqb c c' || includes c s'
  end.

(** [s.startsWith(p)]. *)
Fixpoint startsWith (p s : string) : bool :=
  match p, s with
  | EmptyString, _ => true
  | String a p', String b s' => Ascii.eqb a b && startsWith p' s'
  | String _ _, EmptyString => false
  end.

(** [s.replace(/^p/, "")] for a literal [p]: the prefix is dropped once, and
    only where the string starts with it. *)
Fixpoint drop_prefix (p s : string) : option string :=
  match p, s with
  | EmptyString, _ => Some s
  | String a p', String b s' => if Ascii.eqb a b then drop_prefix p' s' else None
  | String _ _, EmptyString => None
  end.

Definition strip_prefix (p s : string) : string :=
  match drop_prefix p s with Some r => r | None => s end.

(** [/p$/.test(s)] for a literal [p]. *)
Definition endsWith (p s : string) : bool :=
  startsWith (String.rev p) (String.rev s).

(** *** [String.prototype.trim]

    ECMAScript strips WhiteSpace and LineTerminator code points: U+0009 to
    U+000D, U+0020, U+00A0, U+1680, U+2000 to U+200A, U+2028, U+2029, U+202F,
    U+205F, U+3000 and U+FEFF.  In UTF-8 these are one, two or three bytes. *)

Definition ws1 (a : ascii) : bool :=
  let n := nat_of_ascii a in
  ((9 <=? n) && (n <=? 13)) || (n =? 32).

(** U+00A0 is C2 A0. *)
Definition ws2 (a b : ascii) : bool :=
  (nat_of_ascii a =? 194) && (nat_of_ascii b =? 160).

(** U+1680 is E1 9A 80; U+2000..U+200A are E2 80 80..8A; U+2028, U+2029 and
    U+202F are E2 80 A8, A9 and AF; U+205F is E2 81 9F; U+3000 is E3 80 80;
    U+FEFF is EF BB BF. *)
Definition ws3 (a b c : ascii) : bool :=
  let x := nat_of_ascii a in
  let y := nat_of_ascii b in
  let z := nat_of_ascii c in
  ((x =? 225) && (y =? 154) && (z =? 128))
  || ((x =? 226) && (y =? 128)
      && (((128 <=? z) && (z <=? 138)) || (z =? 168) || (z =? 169) || (z =? 175)))
  || ((x =? 226) && (y =? 129) && (z =? 159))
  || ((x =? 227) && (y =? 128) && (z =? 128))
  || ((x =? 239) && (y =? 187) && (z =? 191)).

(** Drops the characters recognised by [w1], [w2], [w3] (of one, two and three
    bytes) from the start of [s], as long as there is one. *)
Fixpoint strip_leading (w1 : ascii -> bool) (w2 : ascii -> ascii -> bool)
    (w3 : ascii -> ascii -> ascii -> bool) (s : string) : string :=
  match s with
  | EmptyString => EmptyString
  | String a r1 =>
      if w1 a then strip_leading w1 w2 w3 r1
      else
        match r1 with
        | EmptyString => s
        | String b r2 =>
            if w2 a b then strip_leading w1 w2 w3 r2
            else
              match r2 with
              | EmptyString => s
              | String c r3 =>
                  if w3 a b c then strip_leading w1 w2 w3 r3 else s
              end
        end
  end.

(** The strings made of such characters only. *)
Inductive Blank (w1 : ascii -> bool) (w2 : ascii -> ascii -> bool)
    (w3 : ascii -> ascii -> ascii -> bool) : string -> Prop :=
  | blank_nil : Blank w1 w2 w3 EmptyString
  | blank_1 a s : w1 a = true -> Blank w1 w2 w3 s -> Blank w1 w2 w3 (String a s)
  | blank_2 a b s :
      w2 a b = true -> Blank w1 w2 w3 s -> Blank w1 w2 w3 (String a (String b s))
  | blank_3 a b c s :
      w3 a b c = true -> Blank w1 w2 w3 s ->
      Blank w1 w2 w3 (String a (String b (String c s))).

(** A string of white space, as [trim] reads white space. *)
Definition WhiteSpace : string -> Prop := Blank ws1 ws2 ws3.

(** The first byte of a white space character. *)
Definition ws_lead (a : ascii) : bool :=
  let n := nat_of_ascii a in
  ws1 a || (n =? 194) || (n =? 225) || (n =? 226) || (n =? 227) || (n =? 239).

(** No byte of [s] starts a white space character. *)
Fixpoint no_ws_lead (s : string) : bool :=
  match s with
  | EmptyString => true
  | String a s' => negb (ws_lead a) && no_ws_lead s'
  end.

Definition trimStart (s : string) : string := strip_leading ws1 ws2 ws3 s.

(** The end of the string is the start of its reverse, where every character's
    bytes come last byte first. *)
Definition trimEnd (s : string) : string :=
  String.rev
    (strip_leading ws1 (fun a b => ws2 b a) (fun a b c => ws3 c b a) (String.rev s)).

Definition trim (s : string) : string := trimEnd (trimStart s).

End Js.

(** ** Effects: exceptions and the trace of a run *)

(** What a [catch] clause can receive. *)
Inductive JsError : Type :=
  | ENOENT            (* fs: no such file or directory *)
  | EACCES            (* fs: permission denied *)
  | EISDIR            (* fs: the path is a directory *)
  | SyntaxError       (* JSON.parse *)
  | TypeError         (* a conversion to string that has no result *)
  | Failure (reason : string)  (* anything a collaborator throws or rejects with *)
  | Unprintable (thrown : JsError).
      (* a thrown value whose conversion to a string throws [thrown]:
         [Object.create(null)] is [Unprintable TypeError] *)

Inductive Result (A : Type) : Type :=
  | Ok (a : A)
  | Throw (e : JsError).
Arguments Ok {A} a.
Arguments Throw {A} e.

(** [String(err)]: the conversion calls the value's own [toString], which may
    be missing or may throw. *)
Definition error_text (e : JsError) : Result string :=
  match e with
  | ENOENT => Ok "Error: ENOENT: no such file or directory"
  | EACCES => Ok "Error: EACCES: permission denied"
  | EISDIR => Ok "Error: EISDIR: illegal operation on a directory"
  | SyntaxError => Ok "SyntaxError"
  | TypeError => Ok "TypeError"
  | Failure reason => Ok reason
  | Unprintable thrown => Throw thrown
  end.

#[global] Instance Result_ret : MRet Result := fun _ a => Ok a.
#[global] Instance Result_bind : MBind Result := fun _ _ f m =>
  match m with Ok a => f a | Throw e => Throw e end.

(** What a run does to the outside world, in the order it does it. *)
Inductive Event : Type :=
  | ReadFile (path : string)      (* fs.readFileSync(path, "utf8") *)
  | LogVerbose (message : string) (* logVerbose(message) *)
  | CallLookup (jid : string).    (* opts.lidLookup.getPNForLID(jid) *)

Record Run (A : Type) : Type := MkRun {
  trace : list Event;
  outcome : Result A
}.
Arguments MkRun {A} trace outcome.
Arguments trace {A} r.
Arguments outcome {A} r.

#[global] Instance Run_ret : MRet Run := fun _ a => MkRun [] (Ok a).
#[global] Instance Run_bind : MBind Run := fun _ _ f m =>
  match outcome m with
  | Ok a => let r := f a in MkRun (trace m ++ trace r) (outcome r)
  | Throw e => MkRun (trace m) (Throw e)
  end.

Definition emit (ev : Event) : Run unit := MkRun [ev] (Ok tt).
Definition lift {A} (r : Result A) : Run A := MkRun [] r.

(** [try { body } catch (err) { handler(err) }]. *)
Definition try_catch {A} (body : Run A) (handler : JsError -> Run A) : Run A :=
  match outcome body with
  | Ok _ => body
  | Throw e => let r := handler e in MkRun (trace body ++ trace r) (outcome r)
  end.

(** [when c m]: the statement [if (c) m;]. *)
Definition when (c : bool) (m : Run unit) : Run unit :=
  if c then m else mret tt.

(** The run invoked the injected lookup. *)
Definition invokes_lookup {A} (r : Run A) : Prop :=
  exists jid, CallLookup jid ∈ trace r.

(** ** JSON values and their conversion to string *)

(** What [JSON.parse] returns.  A number is carried as the text
    [Number.prototype.toString] gives for it, the only thing the module asks
    of a number. *)
Inductive JsonValue : Type :=
  | JNull
  | JBool (b : bool)
  | JNumber (text : string)
  | JString (s : string)
  | JArray (items : list JsonValue)
  | JObject (members : list (string * JsonValue)).

Definition is_null (v : JsonValue) : bool :=
  match v with JNull => true | _ => false end.

(** A JSON scalar other than [null]. *)
Definition is_scalar (v : JsonValue) : bool :=
  match v with JBool _ | JNumber _ | JString _ => true | _ => false end.

(** The string a scalar is coerced to: a string is itself, a number its
    decimal text, a boolean its name. *)
Definition scalar_text (v : JsonValue) : string :=
  match v with
  | JString s => s
  | JNumber text => text
  | JBool true => "true"
  | JBool false => "false"
  | _ => EmptyString
  end.

Definition has_key (k : string) (members : list (string * JsonValue)) : bool :=
  existsb (fun m => String.eqb (fst m) k) members.

(** [String(v)].  An array is joined with commas, [null] items giving the
    empty string.  A plain object gives "[object Object]", unless a member
    named [toString] hides [Object.prototype.toString]: it is no function,
    [valueOf] gives back the object, and the conversion throws. *)
Fixpoint js_String (v : JsonValue) : Result string :=
  match v with
  | JNull => Ok "null"
  | JBool true => Ok "true"
  | JBool false => Ok "false"
  | JNumber text => Ok text
  | JString s => Ok s
  | JArray items =>
      (fix join (l : list JsonValue) : Result string :=
         match l with
         | [] => Ok EmptyString
         | x :: l' =>
             match (if is_null x then Ok EmptyString else js_String x) with
             | Throw e => Throw e
             | Ok sx =>
                 match l' with
                 | [] => Ok sx
                 | _ :: _ =>
                     match join l' with
                     | Ok sl => Ok (sx +:+ "," +:+ sl)
                     | Throw e => Throw e
                     end
                 end
             end
         end) items
  | JObject members =>
      if has_key "toString" members then Throw TypeError else Ok "[object Object]"
  end.

(** ** The environment *)

Inductive FsNode : Type :=
  | File (content : string)   (* a readable file and its text *)
  | Directory
  | Denied.                   (* exists, and may not be read *)

Class Env : Type := {
  (** [../utils.js] *)
  CONFIG_DIR : string;
  resolveOAuthDir : string;
  resolveUserPath : string -> string;
  normalizeE164 : string -> Result string;
  (** [../globals.js] *)
  shouldLogVerbose : bool;
  (** [node:path]: [path.join] and that it never returns the empty string
      (an empty join is "."). *)
  path_join : string -> string -> string;
  path_join_nonempty : forall a b, path_join a b <> EmptyString;
  (** [node:fs]: the files there are; a path that is no key does not exist. *)
  fs : gmap string FsNode;
  (** [JSON.parse] *)
  JSON_parse : string -> Result JsonValue
}.

(** ** Options *)

Record JidToE164Options : Type := {
  authDir : option string;
  lidMappingDirs : option (list string);
  logMissing : option bool
}.

Record LidLookup : Type := {
  getPNForLID : option (string -> Result (option string))
}.

(** [JidToE164Options & { lidLookup?: LidLookup }]. *)
Record ResolveOptions : Type := {
  base : JidToE164Options;
  lidLookup : option LidLookup
}.

(** JavaScript's truth of a [string | null]: a string that is not empty. *)
Definition truthy (s : option string) : bool :=
  match s with
  | Some s => negb (String.eqb s EmptyString)
  | None => false
  end.

(** ** The regular expressions *)

(** [/^(\d+)(?::\d+)?@(d1|d2|...)$/] for the literal alternatives [domains]:
    the match's first group, if the string matches.  The digits are read
    greedily, which loses no match: what follows them starts with [:] or [@]. *)
Definition match_jid (domains : list string) (jid : string) : option string :=
  let '(digits, rest) := Js.span_digits jid in
  if String.eqb digits EmptyString then None
  else
    let after_device :=
      match rest with
      | String c r =>
          if Ascii.eqb c ":" then
            let '(device, r') := Js.span_digits r in
            if String.eqb device EmptyString then rest else r'
          else rest
      | EmptyString => rest
      end in
    match after_device with
    | String c domain =>
        if Ascii.eqb c "@" && existsb (String.eqb domain) domains
        then Some digits else None
    | EmptyString => None
    end.

(** [/^(\d+)(?::\d+)?@(s\.whatsapp\.net|hosted)$/] *)
Definition PHONE_DOMAINS : list string := ["s.whatsapp.net"; "hosted"].
(** [/^(\d+)(?::\d+)?@(lid|hosted\.lid)$/] *)
Definition LID_DOMAINS : list string := ["lid"; "hosted.lid"].

(** [/(@lid|@hosted\.lid)$/.test(jid)] *)
Definition test_lid_suffix (jid : string) : bool :=
  Js.endsWith "@lid" jid || Js.endsWith "@hosted.lid" jid.

(** The strings [/^(\d+)(?::\d+)?@(d1|d2|...)$/] matches, with the first group:
    digits, an optional device ([:] and digits), [@] and one of the domains. *)
Inductive JidShape (domains : list string) : string -> string -> Prop :=
  | shape_plain digits domain :
      Js.digit_string digits = true -> domain ∈ domains ->
      JidShape domains (digits +:+ "@" +:+ domain) digits
  | shape_device digits device domain :
      Js.digit_string digits = true -> Js.digit_string device = true ->
      domain ∈ domains ->
      JidShape domains (digits +:+ ":" +:+ device +:+ "@" +:+ domain) digits.

(** The optional device part of a JID: nothing, or [:] and the device. *)
Definition device_suffix (device : option string) : string :=
  match device with
  | Some s => ":" +:+ s
  | None => EmptyString
  end.


(** ** The module *)

Section Utils.
Context `{E : Env}.

Definition withWhatsAppPrefix (number : string) : string :=
  if Js.startsWith "whatsapp:" number then number else "whatsapp:" +:+ number.

Definition toWhatsappJid (number : string) : Result string :=
  let withoutPrefix := Js.trim (Js.strip_prefix "whatsapp:" number) in
  if Js.includes "@" withoutPrefix then Ok withoutPrefix
  else
    e164 ← normalizeE164 withoutPrefix;
    let digits := Js.remove_non_digits e164 in
    Ok (digits +:+ "@s.whatsapp.net").

(** [Set.prototype.add] on a [Set] kept as the list of its elements in
    insertion order. *)
Definition set_add (x : string) (dirs : list string) : list string :=
  if decide (x ∈ dirs) then dirs else dirs ++ [x].

Definition addDir (dir : option string) (dirs : list string) : list string :=
  match dir with
  | None => dirs
  | Some d =>
      if String.eqb d EmptyString then dirs
      else set_add (resolveUserPath d) dirs
  end.

Definition resolveLidMappingDirs (opts : option JidToE164Options) : list string :=
  let dirs := [] in
  let dirs := addDir (opts ≫= authDir) dirs in
  let dirs :=
    foldl (fun dirs dir => addDir (Some dir) dirs) dirs
      (default [] (opts ≫= lidMappingDirs)) in
  let dirs := addDir (Some resolveOAuthDir) dirs in
  let dirs := addDir (Some (path_join CONFIG_DIR "credentials")) dirs in
  dirs.

Definition readFileSync (path : string) : Run string :=
  emit (ReadFile path);;
  lift match fs !! path with
       | Some (File content) => Ok content
       | Some Directory => Throw EISDIR
       | Some Denied => Throw EACCES
       | None => Throw ENOENT
       end.

Definition logVerbose (message : string) : Run unit := emit (LogVerbose message).

Definition mappingFilename (lid : string) : string :=
  "lid-mapping-" +:+ lid +:+ "_reverse.json".

(** The body of the [try] block for one directory: [None] is [continue],
    [Some phone] is [return phone]. *)
Definition read_mapping (mappingPath : string) : Run (option string) :=
  data ← readFileSync mappingPath;
  phone ← lift (JSON_parse data);
  if is_null phone then mret None
  else
    text ← lift (js_String phone);
    e164 ← lift (normalizeE164 text);
    mret (Some e164).

(** The [for] loop over the directories. *)
Fixpoint scan_dirs (filename : string) (mappingDirs : list string)
    : Run (option string) :=
  match mappingDirs with
  | [] => mret None
  | dir :: rest =>
      let mappingPath := path_join dir filename in
      step ← try_catch (read_mapping mappingPath) (fun _ => mret None);
      match step with
      | Some phone => mret (Some phone)
      | None => scan_dirs filename rest
      end
  end.

Definition readLidReverseMapping (lid : string) (opts : option JidToE164Options)
    : Run (option string) :=
  let mappingDirs := resolveLidMappingDirs opts in
  scan_dirs (mappingFilename lid) mappingDirs.

Definition jidToE164 (jid : string) (opts : option JidToE164Options)
    : Run (option string) :=
  match match_jid PHONE_DOMAINS jid with
  | Some digits => mret (Some ("+" +:+ digits))
  | None =>
      match match_jid LID_DOMAINS jid with
      | Some lid =>
          phone ← readLidReverseMapping lid opts;
          if truthy phone then mret phone
          else
            let shouldLog := default shouldLogVerbose (opts ≫= logMissing) in
            when shouldLog
              (logVerbose ("LID mapping not found for " +:+ lid
                           +:+ "; skipping inbound message"));;
            mret None
      | None => mret None
      end
  end.

(** [opts?.lidLookup?.getPNForLID] *)
Definition lookup_of (opts : option ResolveOptions)
    : option (string -> Result (option string)) :=
  match opts with
  | Some o =>
      match lidLookup o with
      | Some l => getPNForLID l
      | None => None
      end
  | None => None
  end.

(** [await opts.lidLookup.getPNForLID(jid)]: the call is an event of the run;
    what it throws, or rejects with, is thrown at the [await]. *)
Definition await_lookup (lookup : string -> Result (option string)) (jid : string)
    : Run (option string) :=
  emit (CallLookup jid);; lift (lookup jid).

(** An [async] function: the [Run] is what the returned promise settles to. *)
Definition resolveJidToE164 (jid : option string) (opts : option ResolveOptions)
    : Run (option string) :=
  match jid with
  | None => mret None
  | Some jid =>
      if String.eqb jid EmptyString then mret None
      else
        direct ← jidToE164 jid (base <$> opts);
        if truthy direct then mret direct
        else if negb (test_lid_suffix jid) then mret None
        else
          match lookup_of opts with
          | None => mret None
          | Some lookup =>
              try_catch
                (pnJid ← await_lookup lookup jid;
                 match pnJid with
                 | Some pn =>
                     if String.eqb pn EmptyString then mret None
                     else jidToE164 pn (base <$> opts)
                 | None => mret None
                 end)
                (fun err =>
                   when shouldLogVerbose
                     (text ← lift (error_text err);
                      logVerbose ("LID mapping lookup failed for " +:+ jid
                                  +:+ ": " +:+ text));;
                   mret None)
          end
  end.

End Utils.

(** ** A sample environment *)

Module Sample.

(** Modelled from the spec: the normalization collaborator ([normalizeE164] of
    [../utils.js]).  The canonical E.164 form is [+] followed by the digits of
    the input, separators dropped and no digit made up; an input with no digit
    cannot be read as a phone number and is rejected. *)
Definition digits_normalizeE164 (number : string) : Result string :=
  let digits := Js.remove_non_digits number in
  if String.eqb digits EmptyString then Throw (Failure "invalid phone number")
  else Ok ("+" +:+ digits).

Definition DQUOTE : ascii := "034"%char.

(** The JSON text of a string that needs no escape. *)
Definition quoted (s : string) : string :=
  String DQUOTE (s +:+ String DQUOTE EmptyString).

Definition json_ws (c : ascii) : bool :=
  let n := nat_of_ascii c in
  (n =? 9) || (n =? 10) || (n =? 13) || (n =? 32).

Fixpoint skip_ws (s : string) : string :=
  match s with
  | String c s' => if json_ws c then skip_ws s' else s
  | EmptyString => s
  end.

(** The characters of a string literal up to its closing quote, when no
    escape and no control character stands before it, and what follows. *)
Fixpoint plain_chars (s : string) : option (string * string) :=
  match s with
  | EmptyString => None
  | String c s' =>
      if Ascii.eqb c DQUOTE then Some (EmptyString, s')
      else if Ascii.eqb c "\" || (nat_of_ascii c <? 32) then None
      else
        match plain_chars s' with
        | Some (body, rest) => Some (String c body, rest)
        | None => None
        end
  end.

(** A natural number literal that [Number.prototype.toString] prints back
    digit for digit: no leading zero, at most fifteen digits. *)
Definition plain_number (s : string) : bool :=
  Js.digit_string s
  && (String.length s <=? 15)
  && (String.eqb s "0" || negb (Js.startsWith "0" s)).

(** A fragment of [JSON.parse]: one scalar between optional white space, a
    string without escapes or a number as [plain_number] reads it.  On these
    texts the result is [JSON.parse]'s; any other text is outside the fragment
    and is reported as a [SyntaxError], whether or not it is JSON. *)
Definition scalar_JSON_parse (text : string) : Result JsonValue :=
  let body := String.rev (skip_ws (String.rev (skip_ws text))) in
  if String.eqb body "null" then Ok JNull
  else if String.eqb body "true" then Ok (JBool true)
  else if String.eqb body "false" then Ok (JBool false)
  else if plain_number body then Ok (JNumber body)
  else
    match body with
    | String c s' =>
        if Ascii.eqb c DQUOTE then
          match plain_chars s' with
          | Some (str, EmptyString) => Ok (JString str)
          | _ => Throw SyntaxError
          end
        else Throw SyntaxError
    | EmptyString => Throw SyntaxError
    end.

(** POSIX [path.join] of two segments that need no normalisation (no [.] or
    [..] segment, no empty or doubled separator). *)
Definition posix_join (a b : string) : string := a +:+ "/" +:+ b.

Definition nonempty (s : string) : Prop :=
  match s with EmptyString => False | String _ _ => True end.

Definition posix_join_nonempty (a b : string) : posix_join a b <> EmptyString :=
  match a with
  | EmptyString => fun H => eq_ind (String "/" b) nonempty I _ H
  | String c a' => fun H => eq_ind (String c (a' +:+ "/" +:+ b)) nonempty I _ H
  end.

(** An installation whose configuration directory is [/etc/claw], whose OAuth
    directory is [/etc/claw/oauth], and whose paths are all absolute. *)
Definition env (verbose : bool) (files : gmap string FsNode) : Env := {|
  CONFIG_DIR := "/etc/claw";
  resolveOAuthDir := "/etc/claw/oauth";
  resolveUserPath := fun p => p;
  normalizeE164 := digits_normalizeE164;
  shouldLogVerbose := verbose;
  path_join := posix_join;
  path_join_nonempty := posix_join_nonempty;
  fs := files;
  JSON_parse := scalar_JSON_parse
|}.

(** Three credential stores: the caller's holds a [null] for LID 55512, the
    OAuth directory and the default directory each hold a number for it. *)
Definition files : gmap string FsNode :=
  {[ "/srv/auth/lid-mapping-55512_reverse.json" := File "null";
     "/etc/claw/oauth/lid-mapping-55512_reverse.json" := File (quoted "15551234567");
     "/etc/claw/credentials/lid-mapping-55512_reverse.json"
       := File (quoted "15559999999") ]}.

Definition world : Env := env true files.

Definition options : JidToE164Options :=
  {| authDir := Some "/srv/auth"; lidMappingDirs := None; logMissing := None |}.

(** A lookup that knows every LID, and one that is out of reach. *)
Definition answering : string -> Result (option string) :=
  fun _ => Ok (Some "15557654321:2@s.whatsapp.net").
Definition failing : string -> Result (option string) :=
  fun _ => Throw (Failure "timed out").

Definition with_lookup (lookup : option (string -> Result (option string)))
    : ResolveOptions :=
  {| base := options; lidLookup := Some {| getPNForLID := lookup |} |}.

End Sample.

(** ** The directory set, as the specification words it *)

Section DirectorySpec.
Context `{E : Env}.

(** The directories in priority order: the caller's auth directory, the
    caller's extra directories, the OAuth directory, the default credentials
    directory. *)
Definition candidate_dirs (opts : option JidToE164Options) : list string :=
  option_list (opts ≫= authDir)
  ++ default [] (opts ≫= lidMappingDirs)
  ++ [resolveOAuthDir; path_join CONFIG_DIR "credentials"].

(** A list without its repetitions: each element stays where it first occurs. *)
Fixpoint first_occurrences (l : list string) : list string :=
  match l with
  | [] => []
  | x :: l' => x :: filter (fun y => y <> x) (first_occurrences l')
  end.

(** The candidates that are given (not the empty string), resolved, each
    resolved path kept once, where it first occurs. *)
Definition priority_dirs (opts : option JidToE164Options) : list string :=
  first_occurrences
    (resolveUserPath <$> filter (fun d => d <> EmptyString) (candidate_dirs opts)).

End DirectorySpec.

(** ** What the directories hold *)

Section MappingSpec.
Context `{E : Env}.

(** What one pass of the loop finds at [mappingPath]: the phone number the
    [try] block returns, or [None] where the pass goes on to the next
    directory. *)
Definition mapping_at (mappingPath : string) : option string :=
  match fs !! mappingPath with
  | Some (File data) =>
      match JSON_parse data with
      | Ok phone =>
          if is_null phone then None
          else
            match js_String phone ≫= normalizeE164 with
            | Ok e164 => Some e164
            | Throw _ => None
            end
      | Throw _ => None
      end
  | _ => None
  end.

(** The directories tried, in order, and the result: the scan stops at the
    first directory that holds a mapping. *)
Fixpoint first_mapping (filename : string) (mappingDirs : list string)
    : list string * option string :=
  match mappingDirs with
  | [] => ([], None)
  | dir :: rest =>
      match mapping_at (path_join dir filename) with
      | Some phone => ([dir], Some phone)
      | None =>
          let '(tried, found) := first_mapping filename rest in
          (dir :: tried, found)
      end
  end.

(** A miss as the specification lists them: the file is missing, cannot be
    read, is not valid JSON, or holds the JSON [null]. *)
Inductive Miss (mappingPath : string) : Prop :=
  | miss_missing : fs !! mappingPath = None -> Miss mappingPath
  | miss_denied : fs !! mappingPath = Some Denied -> Miss mappingPath
  | miss_directory : fs !! mappingPath = Some Directory -> Miss mappingPath
  | miss_invalid data e :
      fs !! mappingPath = Some (File data) -> JSON_parse data = Throw e ->
      Miss mappingPath
  | miss_null data :
      fs !! mappingPath = Some (File data) -> JSON_parse data = Ok JNull ->
      Miss mappingPath.

End MappingSpec.

(** ** Proof automation *)

(** Unfolds the operations on runs. *)
Ltac run_unfold :=
  unfold mbind, mret, Run_bind, Run_ret, try_catch, emit, lift, when,
    logVerbose, Result_bind in *.

(** Arithmetic on the codes of bytes, stated with boolean tests. *)
Ltac bool_lia :=
  repeat match goal with
    | H : _ = false |- _ => apply not_true_iff_false in H
    | |- _ = false => apply not_true_iff_false; intro
    end;
  cbv zeta in *;
  repeat (progress
            rewrite ?andb_true_iff, ?orb_true_iff, ?Nat.eqb_eq, ?Nat.leb_le in *);
  lia.

(** ** Self-chat mode *)

(** An entry of [allowFrom], an [Array<string | number>].  A number is carried
    as the text [String] gives for it. *)
Inductive AllowEntry : Type :=
  | AllowString (s : string)
  | AllowNumber (text : string).

(** [String(n)] *)
Definition entry_text (n : AllowEntry) : string :=
  match n with
  | AllowString s => s
  | AllowNumber text => text
  end.

(** [n === "*"] *)
Definition is_wildcard (n : AllowEntry) : bool :=
  match n with
  | AllowString s => String.eqb s "*"
  | AllowNumber _ => false
  end.

Section SelfChat.
Context `{E : Env}.

(** The callback of [allowFrom.some]: an entry that is the wildcard, or that
    the normalizer rejects, does not count. *)
Definition entry_matches (normalizedSelf : string) (n : AllowEntry) : bool :=
  if is_wildcard n then false
  else
    match normalizeE164 (entry_text n) with
    | Ok e164 => String.eqb e164 normalizedSelf
    | Throw _ => false
    end.

(** [allowFrom] is [None] where it is absent, [null] or no array. *)
Definition isSelfChatMode (selfE164 : option string)
    (allowFrom : option (list AllowEntry)) : Result bool :=
  if negb (truthy selfE164) then Ok false
  else
    match allowFrom with
    | None | Some [] => Ok false
    | Some entries =>
        normalizedSelf ← normalizeE164 (default EmptyString selfE164);
        Ok (existsb (entry_matches normalizedSelf) entries)
    end.

End SelfChat.

(** The JIDs [jidToE164] has a pattern for end in one of these. *)
Definition known_suffix (jid : string) : bool :=
  Js.endsWith "@s.whatsapp.net" jid || Js.endsWith "@hosted" jid
  || test_lid_suffix jid.

(** The verbose lines of a run. *)
Definition log_lines {A} (r : Run A) : list string :=
  omap (fun ev => match ev with LogVerbose m => Some m | _ => None end) (trace r).

(** The calls of the lookup capability in a run: the JIDs it was given. *)
Definition lookup_calls {A} (r : Run A) : list string :=
  omap (fun ev => match ev with CallLookup j => Some j | _ => None end) (trace r).

(** The files a run read, in order. *)
Definition files_read {A} (r : Run A) : list string :=
  omap (fun ev => match ev with ReadFile p => Some p | _ => None end) (trace r).

(** ** More sample data *)

Module Garbled.

(** The caller's store holds a text that is no phone number for LID 55512;
    the OAuth directory holds a number. *)
Definition files : gmap string FsNode :=
  {[ "/srv/auth/lid-mapping-55512_reverse.json" := File (Sample.quoted "unknown");
     "/etc/claw/oauth/lid-mapping-55512_reverse.json"
       := File (Sample.quoted "15551234567") ]}.

Definition world : Env := Sample.env false files.

End Garbled.

(** A lookup capability was supplied: [opts?.lidLookup?.getPNForLID] is a
    function. *)
Definition has_lookup (opts : option ResolveOptions) : bool :=
  match lookup_of opts with
  | Some _ => true
  | None => false
  end.

Module DefaultInstall.

(** An installation that keeps its OAuth credentials in the default
    credentials directory. *)
Definition world : Env := {|
  CONFIG_DIR := "/etc/claw";
  resolveOAuthDir := "/etc/claw/credentials";
  resolveUserPath := fun p => p;
  normalizeE164 := Sample.digits_normalizeE164;
  shouldLogVerbose := false;
  path_join := Sample.posix_join;
  path_join_nonempty := Sample.posix_join_nonempty;
  fs := ∅;
  JSON_parse := Sample.scalar_JSON_parse
|}.

End DefaultInstall.

Module Numeric.

(** The caller's store holds the number of LID 55512 as a JSON number. *)
Definition files : gmap string FsNode :=
  {[ "/srv/auth/lid-mapping-55512_reverse.json" := File "15550001111";
     "/etc/claw/oauth/lid-mapping-55512_reverse.json"
       := File (Sample.quoted "15551234567") ]}.

Definition world : Env := Sample.env false files.

End Numeric.

Module Arrayed.

(** [Sample.scalar_JSON_parse], and the array of one such scalar: a text
    between [[] and []] is read as the array of the scalar it holds. *)
Definition array_JSON_parse (text : string) : Result JsonValue :=
  let body := String.rev (Sample.skip_ws (String.rev (Sample.skip_ws text))) in
  match body with
  | String c inner =>
      if Ascii.eqb c "[" then
        match String.rev inner with
        | String c' reversed =>
            if Ascii.eqb c' "]" then
              v ← Sample.scalar_JSON_parse (String.rev reversed);
              Ok (JArray [v])
            else Throw SyntaxError
        | EmptyString => Throw SyntaxError
        end
      else Sample.scalar_JSON_parse text
  | EmptyString => Throw SyntaxError
  end.

(** The caller's store holds an array for LID 55512, the OAuth directory a
    number. *)
Definition files : gmap string FsNode :=
  {[ "/srv/auth/lid-mapping-55512_reverse.json"
       := File ("[" +:+ Sample.quoted "15550001111" +:+ "]");
     "/etc/claw/oauth/lid-mapping-55512_reverse.json"
       := File (Sample.quoted "15551234567") ]}.

Definition world : Env := {|
  CONFIG_DIR := "/etc/claw";
  resolveOAuthDir := "/etc/claw/oauth";
  resolveUserPath := fun p => p;
  normalizeE164 := Sample.digits_normalizeE164;
  shouldLogVerbose := false;
  path_join := Sample.posix_join;
  path_join_nonempty := Sample.posix_join_nonempty;
  fs := files;
  JSON_parse := array_JSON_parse
|}.

End Arrayed.

Module National.

(** A normalizer that reads a number written without a leading [+] as a
    national number of country code 1, and a number written with it as an
    international one.  It gives E.164 forms and gives an E.164 form back
    unchanged. *)
Definition national_normalizeE164 (number : string) : Result string :=
  let digits := Js.remove_non_digits number in
  if String.eqb digits EmptyString then Throw (Failure "invalid phone number")
  else if Js.startsWith "+" number then Ok ("+" +:+ digits)
  else Ok ("+1" +:+ digits).

Definition world : Env := {|
  CONFIG_DIR := "/etc/claw";
  resolveOAuthDir := "/etc/claw/oauth";
  resolveUserPath := fun p => p;
  normalizeE164 := national_normalizeE164;
  shouldLogVerbose := false;
  path_join := Sample.posix_join;
  path_join_nonempty := Sample.posix_join_nonempty;
  fs := ∅;
  JSON_parse := Sample.scalar_JSON_parse
|}.

End National.

Module Rejections.

(** A lookup whose promise rejects with [Object.create(null)], a value that
    has no string form. *)
Definition opaque : string -> Result (option string) :=
  fun _ => Throw (Unprintable TypeError).

End Rejections.

(** * Properties *)

(** ** Strings *)

Section StringFacts.

Lemma sapp_nil_r (s : string) : s +:+ EmptyString = s.
Proof. induction s; simpl; congruence. Qed.

Lemma sapp_assoc (s t u : string) : (s +:+ t) +:+ u = s +:+ t +:+ u.
Proof. induction s; simpl; congruence. Qed.

Lemma rev_app_sapp (s t : string) : String.rev_app s t = String.rev s +:+ t.
Proof.
  unfold String.rev. revert t. induction s as [|a s IH]; intros t; simpl; [done|].
  rewrite (IH (String a EmptyString)), IH, sapp_assoc. done.
Qed.

Lemma rev_cons (a : ascii) (s : string) :
  String.rev (String a s) = String.rev s +:+ String a EmptyString.
Proof. unfold String.rev at 1. simpl. apply rev_app_sapp. Qed.

Lemma rev_sapp (s t : string) : String.rev (s +:+ t) = String.rev t +:+ String.rev s.
Proof.
  induction s as [|a s IH]; simpl.
  - by rewrite sapp_nil_r.
  - by rewrite !rev_cons, IH, sapp_assoc.
Qed.

Lemma rev_involutive (s : string) : String.rev (String.rev s) = s.
Proof.
  induction s as [|a s IH]; [done|]. by rewrite rev_cons, rev_sapp, IH.
Qed.

Lemma startsWith_sapp (p s : string) : Js.startsWith p (p +:+ s) = true.
Proof.
  induction p as [|a p IH]; simpl; [done|]. by rewrite Ascii.eqb_refl.
Qed.

Lemma endsWith_sapp (p s : string) : Js.endsWith p (s +:+ p) = true.
Proof. unfold Js.endsWith. rewrite rev_sapp. apply startsWith_sapp. Qed.

Lemma drop_prefix_sapp (p s : string) : Js.drop_prefix p (p +:+ s) = Some s.
Proof.
  induction p as [|a p IH]; simpl; [done|]. by rewrite Ascii.eqb_refl.
Qed.

Lemma drop_prefix_startsWith (p s : string) :
  Js.startsWith p s = false -> Js.drop_prefix p s = None.
Proof.
  revert s. induction p as [|a p IH]; intros [|b s]; simpl; try done.
  destruct (Ascii.eqb a b); simpl; auto.
Qed.

Lemma strip_prefix_sapp (p s : string) : Js.strip_prefix p (p +:+ s) = s.
Proof. unfold Js.strip_prefix. by rewrite drop_prefix_sapp. Qed.

Lemma strip_prefix_absent (p s : string) :
  Js.startsWith p s = false -> Js.strip_prefix p s = s.
Proof. intros H. unfold Js.strip_prefix. by rewrite drop_prefix_startsWith. Qed.

(** *** Digits *)

Lemma digit_string_spec (s : string) :
  Js.digit_string s = true <-> s <> EmptyString /\ Js.all_digits s = true.
Proof.
  unfold Js.digit_string. rewrite andb_true_iff, negb_true_iff, String.eqb_neq. done.
Qed.

Lemma all_digits_sapp (s t : string) :
  Js.all_digits (s +:+ t) = Js.all_digits s && Js.all_digits t.
Proof. induction s as [|a s IH]; simpl; [done|]. by rewrite IH, andb_assoc. Qed.

Lemma span_digits_sapp (d rest : string) :
  Js.all_digits d = true -> Js.no_digit_ahead rest ->
  Js.span_digits (d +:+ rest) = (d, rest).
Proof.
  intros Hd Hrest. induction d as [|a d IH]; simpl in *.
  - destruct rest as [|c r]; simpl in *; [done|]. by rewrite Hrest.
  - apply andb_true_iff in Hd as [Ha Hd]. by rewrite Ha, IH.
Qed.

Lemma span_digits_spec (s d rest : string) :
  Js.span_digits s = (d, rest) ->
  s = d +:+ rest /\ Js.all_digits d = true /\ Js.no_digit_ahead rest.
Proof.
  revert d rest. induction s as [|a s IH]; intros d rest; simpl.
  - intros [= <- <-]. done.
  - destruct (Js.is_digit a) eqn:Ha.
    + destruct (Js.span_digits s) as [d' r']. intros [= <- <-].
      destruct (IH d' r' eq_refl) as (-> & Hd & Hr). simpl. by rewrite Ha.
    + intros [= <- <-]. simpl. done.
Qed.


Lemma includes_digits (c : ascii) (d : string) :
  Js.is_digit c = false -> Js.all_digits d = true -> Js.includes c d = false.
Proof.
  intros Hc. induction d as [|a d IH]; simpl; [done|].
  intros [Ha Hd]%andb_true_iff. rewrite IH by done.
  destruct (Ascii.eqb_spec c a) as [->|]; [congruence|done].
Qed.

End StringFacts.

(** ** White space and [trim] *)

Lemma Blank_sapp w1 w2 w3 (x y : string) :
  Js.Blank w1 w2 w3 x -> Js.Blank w1 w2 w3 y -> Js.Blank w1 w2 w3 (x +:+ y).
Proof.
  induction 1 as [|a w Ha _ IH|a b w Hab _ IH|a b c w Habc _ IH];
    intros Hy; simpl; [done| | |].
  - apply Js.blank_1; auto.
  - apply Js.blank_2; auto.
  - apply Js.blank_3; auto.
Qed.

(** A blank string read backwards is blank for the characters read backwards. *)
Lemma Blank_rev w1 w2 w3 (w : string) :
  Js.Blank w1 w2 w3 w ->
  Js.Blank w1 (fun a b => w2 b a) (fun a b c => w3 c b a) (String.rev w).
Proof.
  induction 1 as [|a w Ha _ IH|a b w Hab _ IH|a b c w Habc _ IH].
  - constructor.
  - rewrite rev_cons. apply Blank_sapp; [done|].
    apply Js.blank_1; [done|constructor].
  - rewrite !rev_cons, sapp_assoc. apply Blank_sapp; [done|]. simpl.
    apply Js.blank_2; [done|constructor].
  - rewrite !rev_cons, !sapp_assoc. apply Blank_sapp; [done|]. simpl.
    apply Js.blank_3; [done|constructor].
Qed.

Section StripFacts.
Variable w1 : ascii -> bool.
Variable w2 : ascii -> ascii -> bool.
Variable w3 : ascii -> ascii -> ascii -> bool.
(** No character is the start of a longer one. *)
Hypothesis w2_not_w1 : forall a b, w2 a b = true -> w1 a = false.
Hypothesis w3_not_w1 : forall a b c, w3 a b c = true -> w1 a = false.
Hypothesis w3_not_w2 : forall a b c, w3 a b c = true -> w2 a b = false.

Lemma strip_leading_blank (w s : string) :
  Js.Blank w1 w2 w3 w ->
  Js.strip_leading w1 w2 w3 (w +:+ s) = Js.strip_leading w1 w2 w3 s.
Proof.
  induction 1 as [|a w Ha _ IH|a b w Hab _ IH|a b c w Habc _ IH]; simpl.
  - done.
  - by rewrite Ha.
  - by rewrite (w2_not_w1 a b), Hab.
  - by rewrite (w3_not_w1 a b c), (w3_not_w2 a b c), Habc.
Qed.

End StripFacts.

(** The bytes of the white space characters. *)
Lemma ws2_not_ws1 a b : Js.ws2 a b = true -> Js.ws1 a = false.
Proof. unfold Js.ws1, Js.ws2. intros. bool_lia. Qed.

Lemma ws3_not_ws1 a b c : Js.ws3 a b c = true -> Js.ws1 a = false.
Proof. unfold Js.ws1, Js.ws3. intros. bool_lia. Qed.

Lemma ws3_not_ws2 a b c : Js.ws3 a b c = true -> Js.ws2 a b = false.
Proof. unfold Js.ws2, Js.ws3. intros. bool_lia. Qed.

Lemma ws2_rev_not_ws1 a b : Js.ws2 b a = true -> Js.ws1 a = false.
Proof. unfold Js.ws1, Js.ws2. intros. bool_lia. Qed.

Lemma ws3_rev_not_ws1 a b c : Js.ws3 c b a = true -> Js.ws1 a = false.
Proof. unfold Js.ws1, Js.ws3. intros. bool_lia. Qed.

Lemma ws3_rev_not_ws2 a b c : Js.ws3 c b a = true -> Js.ws2 b a = false.
Proof. unfold Js.ws2, Js.ws3. intros. bool_lia. Qed.

Lemma ws_lead_not_second a b : Js.ws_lead b = true -> Js.ws2 a b = false.
Proof. unfold Js.ws_lead, Js.ws1, Js.ws2. intros. bool_lia. Qed.

Lemma ws_lead_not_middle a b c : Js.ws_lead b = true -> Js.ws3 a b c = false.
Proof. unfold Js.ws_lead, Js.ws1, Js.ws3. intros. bool_lia. Qed.

Lemma ws_lead_not_last a b c : Js.ws_lead c = true -> Js.ws3 a b c = false.
Proof. unfold Js.ws_lead, Js.ws1, Js.ws3. intros. bool_lia. Qed.

Lemma WhiteSpace_lead (b : ascii) (r : string) :
  Js.WhiteSpace (String b r) -> Js.ws_lead b = true.
Proof.
  inversion 1 as [|a s Ha _|a b' s Hab _|a b' c' s Habc _]; subst;
    unfold Js.ws_lead, Js.ws1, Js.ws2, Js.ws3 in *; bool_lia.
Qed.

Lemma trimStart_blank (w s : string) :
  Js.WhiteSpace w -> Js.trimStart (w +:+ s) = Js.trimStart s.
Proof.
  apply strip_leading_blank;
    eauto using ws2_not_ws1, ws3_not_ws1, ws3_not_ws2.
Qed.

Lemma trimEnd_blank (s w : string) :
  Js.WhiteSpace w -> Js.trimEnd (s +:+ w) = Js.trimEnd s.
Proof.
  intros Hw. unfold Js.trimEnd. rewrite rev_sapp. f_equal.
  apply strip_leading_blank;
    eauto using ws2_rev_not_ws1, ws3_rev_not_ws1, ws3_rev_not_ws2.
  by apply Blank_rev.
Qed.


Lemma trimStart_WhiteSpace (w : string) : Js.WhiteSpace w -> Js.trimStart w = EmptyString.
Proof.
  intros Hw. rewrite <- (sapp_nil_r w). by rewrite trimStart_blank.
Qed.

(** White space after a string is out of [trimStart]'s reach, unless the
    string is white space too. *)
Lemma trimStart_before_blank (w : string) :
  Js.WhiteSpace w ->
  forall c,
    Js.trimStart (c +:+ w)
    = match Js.trimStart c with
      | EmptyString => EmptyString
      | String _ _ as kept => kept +:+ w
      end.
Proof.
  intros Hw c.
  remember (String.length c) as n eqn:Hn. revert c Hn.
  induction n as [n IH] using lt_wf_ind. intros c ->.
  assert (forall t, String.length t < String.length c ->
            Js.trimStart (t +:+ w)
            = match Js.trimStart t with
              | EmptyString => EmptyString
              | String _ _ as kept => kept +:+ w
              end) as IH' by (intros t Ht; by eapply IH).
  clear IH. unfold Js.trimStart in *.
  destruct c as [|a r1]; simpl.
  { by apply trimStart_WhiteSpace. }
  destruct (Js.ws1 a) eqn:Ha; [apply IH'; simpl; lia|].
  destruct r1 as [|b r2]; simpl.
  { destruct w as [|b' r]; [done|].
    apply WhiteSpace_lead in Hw.
    rewrite (ws_lead_not_second a b') by done.
    destruct r as [|c' r']; [done|].
    by rewrite (ws_lead_not_middle a b' c'). }
  destruct (Js.ws2 a b) eqn:Hab; [apply IH'; simpl; lia|].
  destruct r2 as [|c r3]; simpl.
  { destruct w as [|c' r]; [done|].
    apply WhiteSpace_lead in Hw.
    by rewrite (ws_lead_not_last a b c'). }
  destruct (Js.ws3 a b c) eqn:Habc; [apply IH'; simpl; lia|done].
Qed.

Lemma trimEnd_empty : Js.trimEnd EmptyString = EmptyString.
Proof. reflexivity. Qed.

(** White space around a string does not change what [trim] keeps. *)
Lemma trim_blank (w1 c w2 : string) :
  Js.WhiteSpace w1 -> Js.WhiteSpace w2 ->
  Js.trim (w1 +:+ c +:+ w2) = Js.trim c.
Proof.
  intros H1 H2. unfold Js.trim.
  rewrite trimStart_blank, (trimStart_before_blank w2) by done.
  destruct (Js.trimStart c) as [|a kept]; [done|].
  by rewrite trimEnd_blank.
Qed.

(** White space does not start with a letter. *)
Lemma WhiteSpace_no_prefix (w s : string) (a : ascii) (p : string) :
  Js.WhiteSpace w -> w <> EmptyString -> Js.ws_lead a = false ->
  Js.startsWith (String a p) (w +:+ s) = false.
Proof.
  intros Hw Hne Ha. destruct w as [|b r]; [done|].
  apply WhiteSpace_lead in Hw. simpl.
  destruct (Ascii.eqb_spec a b) as [->|]; [congruence|done].
Qed.

(** White space after a string adds no prefix made of other characters. *)
Lemma startsWith_before_blank (p c w : string) :
  Js.no_ws_lead p = true -> Js.WhiteSpace w ->
  Js.startsWith p c = false -> Js.startsWith p (c +:+ w) = false.
Proof.
  intros Hp Hw. revert c. induction p as [|a p IH]; intros c; simpl; [done|].
  simpl in Hp. apply andb_true_iff in Hp as [Ha Hp]. apply negb_true_iff in Ha.
  destruct c as [|x c]; simpl.
  - intros _. destruct w as [|b r]; [done|].
    apply WhiteSpace_lead in Hw.
    destruct (Ascii.eqb_spec a b) as [->|]; [congruence|done].
  - destruct (Ascii.eqb a x); simpl; [by apply IH|done].
Qed.

(** *** [includes] and the strings cut out of a string *)

Lemma includes_sapp (c : ascii) (s t : string) :
  Js.includes c (s +:+ t) = Js.includes c s || Js.includes c t.
Proof. induction s as [|a s IH]; simpl; [done|]. by rewrite IH, orb_assoc. Qed.


Lemma drop_prefix_spec (p s r : string) :
  Js.drop_prefix p s = Some r -> s = p +:+ r.
Proof.
  revert s. induction p as [|a p IH]; intros [|b s]; simpl; try congruence.
  destruct (Ascii.eqb_spec a b) as [->|]; [|done].
  intros H. by rewrite (IH s H).
Qed.




(** ** The regular expressions *)

Section RegexFacts.

Lemma existsb_eqb (x : string) (l : list string) :
  existsb (String.eqb x) l = true <-> x ∈ l.
Proof.
  induction l as [|y l IH]; simpl.
  - rewrite elem_of_nil. done.
  - rewrite orb_true_iff, IH, elem_of_cons, String.eqb_eq. done.
Qed.

Lemma match_jid_complete (domains : list string) (jid digits : string) :
  JidShape domains jid digits -> match_jid domains jid = Some digits.
Proof.
  intros [d domain Hd Hin|d device domain Hd Hdev Hin];
    apply digit_string_spec in Hd as [Hne Hd]; unfold match_jid.
  - rewrite span_digits_sapp by done.
    apply String.eqb_neq in Hne as ->. simpl.
    apply existsb_eqb in Hin as ->. done.
  - apply digit_string_spec in Hdev as [Hdne Hdev].
    rewrite span_digits_sapp by done.
    apply String.eqb_neq in Hne as ->. simpl.
    rewrite span_digits_sapp by done.
    apply String.eqb_neq in Hdne as ->. simpl.
    apply existsb_eqb in Hin as ->. done.
Qed.

Lemma match_jid_sound (domains : list string) (jid digits : string) :
  match_jid domains jid = Some digits -> JidShape domains jid digits.
Proof.
  unfold match_jid.
  destruct (Js.span_digits jid) as [d rest] eqn:Hspan.
  apply span_digits_spec in Hspan as (-> & Hd & Hrest).
  destruct (String.eqb_spec d EmptyString) as [|Hne]; [done|].
  assert (Js.digit_string d = true) as Hds by (by apply digit_string_spec).
  destruct rest as [|c r]; [done|].
  destruct (Ascii.eqb_spec c ":") as [->|Hc].
  - destruct (Js.span_digits r) as [device r'] eqn:Hspan'.
    apply span_digits_spec in Hspan' as (-> & Hdev & Hr').
    destruct (String.eqb_spec device EmptyString) as [->|Hdne]; [done|].
    destruct r' as [|c' domain]; [done|].
    destruct (Ascii.eqb_spec c' "@") as [->|]; [|done]. simpl.
    destruct (existsb _ domains) eqn:Hin; [|done].
    intros [= <-]. apply existsb_eqb in Hin.
    apply (shape_device domains d device domain); [done| |done].
    by apply digit_string_spec.
  - destruct (Ascii.eqb_spec c "@") as [->|]; [|done]. simpl.
    destruct (existsb _ domains) eqn:Hin; [|done].
    intros [= <-]. apply existsb_eqb in Hin. by apply shape_plain.
Qed.

Lemma match_jid_spec (domains : list string) (jid digits : string) :
  match_jid domains jid = Some digits <-> JidShape domains jid digits.
Proof. split; [apply match_jid_sound | apply match_jid_complete]. Qed.

(** The tail of a matching string: [@] and the domain. *)
Lemma JidShape_tail (domains : list string) (jid digits : string) :
  JidShape domains jid digits ->
  exists front domain, domain ∈ domains /\ jid = front +:+ "@" +:+ domain.
Proof.
  intros [d domain _ Hin|d device domain _ _ Hin].
  - by exists d, domain.
  - exists (d +:+ ":" +:+ device), domain. by rewrite !sapp_assoc.
Qed.

End RegexFacts.

(** ** The directory set *)

Section DirectoryFacts.
Context `{E : Env}.

Lemma filter_all {A} (P : A -> Prop) `{forall x, Decision (P x)} (l : list A) :
  (forall x, x ∈ l -> P x) -> filter P l = l.
Proof.
  induction l as [|x l IH]; intros Hl; [done|].
  rewrite filter_cons_True by (apply Hl; left).
  f_equal. apply IH. intros y Hy. apply Hl. by right.
Qed.

Lemma first_occurrences_elem (l : list string) (x : string) :
  x ∈ first_occurrences l <-> x ∈ l.
Proof.
  induction l as [|y l IH]; simpl; [done|].
  rewrite !elem_of_cons, list_elem_of_filter, IH.
  destruct (decide (x = y)); naive_solver.
Qed.

Lemma first_occurrences_NoDup (l : list string) : NoDup (first_occurrences l).
Proof.
  induction l as [|y l IH]; simpl; constructor.
  - rewrite list_elem_of_filter. naive_solver.
  - by apply NoDup_filter.
Qed.

(** Adding the elements of [l] one by one to a set that holds [acc]. *)
Lemma foldl_set_add (l acc : list string) :
  foldl (fun dirs x => set_add x dirs) acc l
  = acc ++ filter (fun y => y ∉ acc) (first_occurrences l).
Proof.
  revert acc. induction l as [|x l IH]; intros acc; simpl.
  - by rewrite app_nil_r.
  - rewrite IH. unfold set_add. destruct (decide (x ∈ acc)) as [Hin|Hin].
    + rewrite filter_cons_False by naive_solver.
      f_equal. rewrite list_filter_filter. apply list_filter_iff.
      intros y. split; [|naive_solver]. intros Hy. split; [done|]. by intros ->.
    + rewrite filter_cons_True by done.
      rewrite <- app_assoc. simpl. do 2 f_equal.
      rewrite list_filter_filter. apply list_filter_iff.
      intros y. rewrite not_elem_of_app, list_elem_of_singleton. naive_solver.
Qed.

Lemma foldl_addDir (l acc : list string) :
  foldl (fun dirs dir => addDir (Some dir) dirs) acc l
  = foldl (fun dirs x => set_add x dirs) acc
      (resolveUserPath <$> filter (fun d => d <> EmptyString) l).
Proof.
  revert acc. induction l as [|d l IH]; intros acc; simpl; [done|].
  rewrite IH. destruct (String.eqb_spec d EmptyString) as [->|Hd].
  - by rewrite filter_cons_False by naive_solver.
  - by rewrite filter_cons_True by done.
Qed.

Lemma resolveLidMappingDirs_fold (opts : option JidToE164Options) :
  resolveLidMappingDirs opts
  = foldl (fun dirs dir => addDir (Some dir) dirs) [] (candidate_dirs opts).
Proof.
  unfold resolveLidMappingDirs, candidate_dirs.
  rewrite !foldl_app. simpl. by destruct (opts ≫= authDir).
Qed.

Lemma resolveLidMappingDirs_priority (opts : option JidToE164Options) :
  resolveLidMappingDirs opts = priority_dirs opts.
Proof.
  rewrite resolveLidMappingDirs_fold, foldl_addDir, foldl_set_add. simpl.
  unfold priority_dirs. apply filter_all. intros y _. apply not_elem_of_nil.
Qed.

End DirectoryFacts.

(** ** Runs *)

Lemma run_eta {A} (r : Run A) : MkRun (trace r) (outcome r) = r.
Proof. by destruct r. Qed.

Lemma bind_ok {A B} (m : Run A) (f : A -> Run B) (a : A) :
  outcome m = Ok a ->
  m ≫= f = MkRun (trace m ++ trace (f a)) (outcome (f a)).
Proof. intros H. unfold mbind, Run_bind. by rewrite H. Qed.

Lemma bind_throw {A B} (m : Run A) (f : A -> Run B) (e : JsError) :
  outcome m = Throw e -> m ≫= f = MkRun (trace m) (Throw e).
Proof. intros H. unfold mbind, Run_bind. by rewrite H. Qed.

Lemma bind_ret {A B} (a : A) (f : A -> Run B) : mret a ≫= f = f a.
Proof. unfold mbind, mret, Run_bind, Run_ret. simpl. apply run_eta. Qed.

(** ** The scan of the directories *)

Section ScanFacts.
Context `{E : Env}.

(** One pass of the loop reads one file and never throws. *)
Lemma pass_run (mappingPath : string) :
  try_catch (read_mapping mappingPath) (fun _ => mret None)
  = MkRun [ReadFile mappingPath] (Ok (mapping_at mappingPath)).
Proof.
  unfold read_mapping, readFileSync, mapping_at.
  destruct (fs !! mappingPath) as [[data| |]|]; try reflexivity.
  run_unfold. simpl.
  destruct (JSON_parse data) as [phone|e]; simpl; [|reflexivity].
  destruct (is_null phone); simpl; [reflexivity|].
  destruct (js_String phone) as [text|e]; simpl; [|reflexivity].
  destruct (normalizeE164 text) as [e164|e]; reflexivity.
Qed.

Lemma scan_dirs_run (filename : string) (mappingDirs : list string) :
  scan_dirs filename mappingDirs
  = MkRun (ReadFile <$> ((fun dir => path_join dir filename)
                           <$> (first_mapping filename mappingDirs).1))
          (Ok (first_mapping filename mappingDirs).2).
Proof.
  induction mappingDirs as [|dir rest IH]; simpl; [reflexivity|].
  rewrite pass_run.
  destruct (mapping_at (path_join dir filename)) as [phone|]; [reflexivity|].
  rewrite (bind_ok _ _ None) by reflexivity.
  rewrite IH. by destruct (first_mapping filename rest).
Qed.

Lemma Miss_mapping_at (mappingPath : string) :
  Miss mappingPath -> mapping_at mappingPath = None.
Proof.
  unfold mapping_at.
  intros [H|H|H|data e H Hp|data H Hp]; rewrite H; try done; by rewrite Hp.
Qed.

Lemma first_mapping_hit (filename : string) (pre post : list string)
    (dir phone : string) :
  (forall d, d ∈ pre -> mapping_at (path_join d filename) = None) ->
  mapping_at (path_join dir filename) = Some phone ->
  first_mapping filename (pre ++ dir :: post) = (pre ++ [dir], Some phone).
Proof.
  intros Hpre Hdir. induction pre as [|d pre IH]; simpl.
  - by rewrite Hdir.
  - rewrite (Hpre d) by left. rewrite IH; [done|].
    intros d' Hd'. apply Hpre. by right.
Qed.

Lemma first_mapping_none (filename : string) (mappingDirs : list string) :
  (forall d, d ∈ mappingDirs -> mapping_at (path_join d filename) = None) ->
  first_mapping filename mappingDirs = (mappingDirs, None).
Proof.
  intros Hall. induction mappingDirs as [|d l IH]; simpl; [done|].
  rewrite (Hall d) by left. rewrite IH; [done|].
  intros d' Hd'. apply Hall. by right.
Qed.

End ScanFacts.

(** ** Decoding a JID *)

Section DecodeFacts.
Context `{E : Env}.

Lemma jidToE164_phone (jid digits : string) (opts : option JidToE164Options) :
  match_jid PHONE_DOMAINS jid = Some digits ->
  jidToE164 jid opts = mret (Some ("+" +:+ digits)).
Proof. intros H. unfold jidToE164. by rewrite H. Qed.

Lemma readLidReverseMapping_run (lid : string) (opts : option JidToE164Options) :
  readLidReverseMapping lid opts
  = MkRun (ReadFile <$> ((fun dir => path_join dir (mappingFilename lid))
             <$> (first_mapping (mappingFilename lid) (resolveLidMappingDirs opts)).1))
          (Ok (first_mapping (mappingFilename lid) (resolveLidMappingDirs opts)).2).
Proof. apply scan_dirs_run. Qed.

(** The decode never throws, and a phone number it returns is not empty. *)
Lemma jidToE164_total (jid : string) (opts : option JidToE164Options) :
  exists r, outcome (jidToE164 jid opts) = Ok r /\ (r = None \/ truthy r = true).
Proof.
  unfold jidToE164.
  destruct (match_jid PHONE_DOMAINS jid) as [digits|].
  { eexists. split; [done|]. right. done. }
  destruct (match_jid LID_DOMAINS jid) as [lid|]; [|by exists None; auto].
  rewrite readLidReverseMapping_run.
  destruct (first_mapping _ _) as [tried found]. simpl.
  destruct (truthy found) eqn:Hfound.
  - exists found. auto.
  - exists None. split; [|auto].
    destruct (default shouldLogVerbose (opts ≫= logMissing)); reflexivity.
Qed.

(** The decode reads files and writes log lines, and does nothing else. *)
Lemma jidToE164_no_lookup (jid : string) (opts : option JidToE164Options) :
  ~ invokes_lookup (jidToE164 jid opts).
Proof.
  unfold invokes_lookup, jidToE164.
  destruct (match_jid PHONE_DOMAINS jid) as [digits|].
  { intros [j Hj]. by apply elem_of_nil in Hj. }
  destruct (match_jid LID_DOMAINS jid) as [lid|];
    [|intros [j Hj]; by apply elem_of_nil in Hj].
  rewrite readLidReverseMapping_run.
  destruct (first_mapping _ _) as [tried found]. simpl.
  intros [j Hj]. apply elem_of_app in Hj as [Hj|Hj].
  - apply list_elem_of_fmap in Hj as (p & Hp & _). done.
  - destruct (truthy found); [by apply elem_of_nil in Hj|].
    destruct (default shouldLogVerbose (opts ≫= logMissing)); simpl in Hj.
    + apply list_elem_of_singleton in Hj. done.
    + by apply elem_of_nil in Hj.
Qed.

(** A LID with no mapping in any directory decodes to [null]. *)
Lemma jidToE164_lid_unmapped (jid lid : string) (opts : option JidToE164Options) :
  match_jid PHONE_DOMAINS jid = None ->
  match_jid LID_DOMAINS jid = Some lid ->
  (forall dir, dir ∈ resolveLidMappingDirs opts ->
     mapping_at (path_join dir (mappingFilename lid)) = None) ->
  outcome (jidToE164 jid opts) = Ok None.
Proof.
  intros Hphone Hlid Hnone. unfold jidToE164. rewrite Hphone, Hlid.
  rewrite readLidReverseMapping_run, first_mapping_none by done. simpl.
  destruct (default shouldLogVerbose (opts ≫= logMissing)); reflexivity.
Qed.

End DecodeFacts.

Lemma match_jid_disjoint (D1 D2 : list string) (jid digits : string) :
  (forall x, x ∈ D1 -> x ∉ D2) ->
  match_jid D1 jid = Some digits -> match_jid D2 jid = None.
Proof.
  intros Hdis. unfold match_jid.
  destruct (Js.span_digits jid) as [d rest].
  destruct (String.eqb d EmptyString); [done|].
  match goal with |- context [match ?a with EmptyString => None | String _ _ => _ end] =>
    destruct a as [|c domain]; [done|] end.
  destruct (Ascii.eqb c "@"); [|done]. simpl.
  destruct (existsb (String.eqb domain) D1) eqn:H1; [|done].
  intros _. apply existsb_eqb in H1. apply Hdis in H1.
  destruct (existsb (String.eqb domain) D2) eqn:H2; [|done].
  by apply existsb_eqb in H2.
Qed.

Lemma lid_is_no_phone (jid lid : string) :
  match_jid LID_DOMAINS jid = Some lid -> match_jid PHONE_DOMAINS jid = None.
Proof.
  apply match_jid_disjoint. intros x Hx Hx'.
  unfold LID_DOMAINS, PHONE_DOMAINS in *.
  repeat (apply elem_of_cons in Hx as [->|Hx]);
    repeat (apply elem_of_cons in Hx' as [Hx'|Hx']);
    try discriminate; try by apply elem_of_nil in Hx'.
  all: by apply elem_of_nil in Hx.
Qed.

Lemma lid_has_lid_suffix (jid lid : string) :
  match_jid LID_DOMAINS jid = Some lid -> test_lid_suffix jid = true.
Proof.
  intros H. apply match_jid_sound, JidShape_tail in H as (front & domain & Hin & ->).
  unfold test_lid_suffix, LID_DOMAINS in *.
  apply elem_of_cons in Hin as [->|Hin].
  - change (front +:+ "@" +:+ "lid") with (front +:+ "@lid").
    by rewrite endsWith_sapp.
  - apply list_elem_of_singleton in Hin as ->.
    change (front +:+ "@" +:+ "hosted.lid") with (front +:+ "@hosted.lid").
    rewrite (endsWith_sapp "@hosted.lid"). apply orb_true_r.
Qed.

Lemma match_jid_nonempty (domains : list string) (jid digits : string) :
  match_jid domains jid = Some digits -> jid <> EmptyString.
Proof. intros H ->. discriminate. Qed.

(** ** The resolver *)

Section ResolveFacts.
Context `{E : Env}.

Lemma resolve_absent (opts : option ResolveOptions) :
  resolveJidToE164 None opts = mret None.
Proof. reflexivity. Qed.

Lemma resolve_empty (opts : option ResolveOptions) :
  resolveJidToE164 (Some EmptyString) opts = mret None.
Proof. reflexivity. Qed.

(** The resolver after its first step: [direct] is what the decode gave. *)
Lemma resolve_step (jid : string) (opts : option ResolveOptions)
    (direct : option string) :
  jid <> EmptyString ->
  outcome (jidToE164 jid (base <$> opts)) = Ok direct ->
  resolveJidToE164 (Some jid) opts
  = let r :=
      if truthy direct then mret direct
      else if negb (test_lid_suffix jid) then mret None
      else
        match lookup_of opts with
        | None => mret None
        | Some lookup =>
            try_catch
              (pnJid ← await_lookup lookup jid;
               match pnJid with
               | Some pn =>
                   if String.eqb pn EmptyString then mret None
                   else jidToE164 pn (base <$> opts)
               | None => mret None
               end)
              (fun err =>
                 when shouldLogVerbose
                   (text ← lift (error_text err);
                    logVerbose ("LID mapping lookup failed for " +:+ jid
                                +:+ ": " +:+ text));;
                 mret None)
        end in
    MkRun (trace (jidToE164 jid (base <$> opts)) ++ trace r) (outcome r).
Proof.
  intros Hne Hdirect. unfold resolveJidToE164.
  apply String.eqb_neq in Hne as ->.
  by rewrite (bind_ok _ _ direct).
Qed.

Lemma resolve_direct_hit (jid : string) (opts : option ResolveOptions)
    (direct : option string) :
  jid <> EmptyString ->
  outcome (jidToE164 jid (base <$> opts)) = Ok direct ->
  truthy direct = true ->
  resolveJidToE164 (Some jid) opts = jidToE164 jid (base <$> opts).
Proof.
  intros Hne Hdirect Htrue. rewrite (resolve_step jid opts direct) by done.
  rewrite Htrue. cbn [trace outcome mret Run_ret]. rewrite app_nil_r, <- Hdirect.
  apply run_eta.
Qed.

(** No fallback: the JID has no LID suffix, or no capability was supplied. *)
Lemma resolve_no_fallback (jid : string) (opts : option ResolveOptions)
    (direct : option string) :
  jid <> EmptyString ->
  outcome (jidToE164 jid (base <$> opts)) = Ok direct ->
  truthy direct = false ->
  test_lid_suffix jid = false \/ lookup_of opts = None ->
  resolveJidToE164 (Some jid) opts
  = MkRun (trace (jidToE164 jid (base <$> opts))) (Ok None).
Proof.
  intros Hne Hdirect Hfalse Hcase. rewrite (resolve_step jid opts direct) by done.
  rewrite Hfalse.
  destruct Hcase as [->| ->]; [|destruct (negb _)];
    cbn [negb trace outcome mret Run_ret]; by rewrite app_nil_r.
Qed.

(** The fallback, when the capability fails: the handler converts the failure
    to a string for the log line when the verbose switch is on, and that
    conversion may throw in its turn. *)
Lemma resolve_lookup_throws (jid : string) (opts : option ResolveOptions)
    (direct : option string) (lookup : string -> Result (option string))
    (e : JsError) :
  jid <> EmptyString ->
  outcome (jidToE164 jid (base <$> opts)) = Ok direct ->
  truthy direct = false ->
  test_lid_suffix jid = true ->
  lookup_of opts = Some lookup ->
  lookup jid = Throw e ->
  resolveJidToE164 (Some jid) opts
  = MkRun (trace (jidToE164 jid (base <$> opts)) ++ CallLookup jid ::
             (if shouldLogVerbose
              then match error_text e with
                   | Ok text =>
                       [LogVerbose ("LID mapping lookup failed for " +:+ jid
                                    +:+ ": " +:+ text)]
                   | Throw _ => []
                   end
              else []))
          (if shouldLogVerbose
           then match error_text e with
                | Ok _ => Ok None
                | Throw thrown => Throw thrown
                end
           else Ok None).
Proof.
  intros Hne Hdirect Hfalse Hlid Hlookup Hthrow.
  rewrite (resolve_step jid opts direct) by done.
  rewrite Hfalse, Hlid, Hlookup. cbn [negb].
  unfold await_lookup, try_catch. run_unfold. cbn [trace outcome].
  rewrite Hthrow. cbn [trace outcome].
  destruct shouldLogVerbose; [|reflexivity].
  by destruct (error_text e).
Qed.

(** The fallback, when the capability answers with nothing. *)
Lemma resolve_lookup_nothing (jid : string) (opts : option ResolveOptions)
    (direct pnJid : option string) (lookup : string -> Result (option string)) :
  jid <> EmptyString ->
  outcome (jidToE164 jid (base <$> opts)) = Ok direct ->
  truthy direct = false ->
  test_lid_suffix jid = true ->
  lookup_of opts = Some lookup ->
  lookup jid = Ok pnJid ->
  truthy pnJid = false ->
  resolveJidToE164 (Some jid) opts
  = MkRun (trace (jidToE164 jid (base <$> opts)) ++ [CallLookup jid]) (Ok None).
Proof.
  intros Hne Hdirect Hfalse Hlid Hlookup Hanswer Hnothing.
  rewrite (resolve_step jid opts direct) by done.
  rewrite Hfalse, Hlid, Hlookup. cbn [negb].
  unfold await_lookup, try_catch. run_unfold. cbn [trace outcome].
  rewrite Hanswer. cbn [trace outcome app].
  destruct pnJid as [pn|]; [|reflexivity].
  cbn [truthy] in Hnothing. apply negb_false_iff in Hnothing. by rewrite Hnothing.
Qed.

(** The fallback, when the capability answers with a JID. *)
Lemma resolve_lookup_answers (jid pn : string) (opts : option ResolveOptions)
    (direct : option string) (lookup : string -> Result (option string)) :
  jid <> EmptyString ->
  outcome (jidToE164 jid (base <$> opts)) = Ok direct ->
  truthy direct = false ->
  test_lid_suffix jid = true ->
  lookup_of opts = Some lookup ->
  lookup jid = Ok (Some pn) ->
  pn <> EmptyString ->
  resolveJidToE164 (Some jid) opts
  = MkRun (trace (jidToE164 jid (base <$> opts)) ++ CallLookup jid ::
             trace (jidToE164 pn (base <$> opts)))
          (outcome (jidToE164 pn (base <$> opts))).
Proof.
  intros Hne Hdirect Hfalse Hlid Hlookup Hanswer Hpn.
  rewrite (resolve_step jid opts direct) by done.
  rewrite Hfalse, Hlid, Hlookup. cbn [negb].
  unfold await_lookup, try_catch. run_unfold. cbn [trace outcome].
  rewrite Hanswer. cbn [trace outcome app].
  apply String.eqb_neq in Hpn as ->.
  destruct (jidToE164_total pn (base <$> opts)) as (r & Hr & _).
  rewrite Hr. reflexivity.
Qed.

End ResolveFacts.

(** ** The prefix *)

Lemma withWhatsAppPrefix_starts `{E : Env} (number : string) :
  Js.startsWith "whatsapp:" (withWhatsAppPrefix number) = true.
Proof.
  unfold withWhatsAppPrefix.
  destruct (Js.startsWith "whatsapp:" number) eqn:H; [done|].
  apply startsWith_sapp.
Qed.

Lemma withWhatsAppPrefix_idempotent `{E : Env} (number : string) :
  withWhatsAppPrefix (withWhatsAppPrefix number) = withWhatsAppPrefix number.
Proof.
  unfold withWhatsAppPrefix at 1. by rewrite withWhatsAppPrefix_starts.
Qed.

(** * The claims *)

Lemma js_String_scalar_text (v : JsonValue) :
  is_scalar v = true -> js_String v = Ok (scalar_text v).
Proof. by destruct v as [|[]| | | |]. Qed.

Lemma first_occurrences_sublist (l : list string) :
  first_occurrences l `sublist_of` l.
Proof.
  induction l as [|x l IH]; simpl; [done|].
  apply sublist_skip. etrans; [apply sublist_filter|done].
Qed.

(** C1, as the code has it.  The reverse-mapping lookup tries the resolved
    directories in order.  When every directory before [dir] is a miss (its
    file is missing, unreadable, not JSON, or [null]), the file in [dir]
    parses to a scalar that is not [null], and the normalizer gives a number
    for the string that scalar is coerced to (a string itself, a number's
    decimal text, a boolean's name), the lookup returns that number, and it
    has read the files of the directories up to [dir] and no other: the
    directories after [dir] are not tried, whatever they hold. *)
Theorem readLidReverseMapping_first_wins `{E : Env} (lid : string)
    (opts : option JidToE164Options) (pre post : list string)
    (dir data e164 : string) (phone : JsonValue) :
  resolveLidMappingDirs opts = pre ++ dir :: post ->
  (forall d, d ∈ pre -> Miss (path_join d (mappingFilename lid))) ->
  fs !! path_join dir (mappingFilename lid) = Some (File data) ->
  JSON_parse data = Ok phone ->
  is_scalar phone = true ->
  normalizeE164 (scalar_text phone) = Ok e164 ->
  readLidReverseMapping lid opts
  = MkRun (ReadFile <$> ((fun d => path_join d (mappingFilename lid))
                           <$> (pre ++ [dir])))
          (Ok (Some e164)).
Proof.
  intros Hdirs Hpre Hfile Hparse Hscalar Hnorm.
  rewrite readLidReverseMapping_run, Hdirs.
  rewrite (first_mapping_hit _ pre post dir e164); [done| |].
  - intros d Hd. by apply Miss_mapping_at, Hpre.
  - unfold mapping_at.
    rewrite Hfile, Hparse, (js_String_scalar_text phone Hscalar).
    simpl. rewrite Hnorm. by destruct phone.
Qed.

Lemma readLidReverseMapping_first_wins_witness :
  readLidReverseMapping (E := Sample.world) "55512" (Some Sample.options)
  = MkRun [ReadFile "/srv/auth/lid-mapping-55512_reverse.json";
           ReadFile "/etc/claw/oauth/lid-mapping-55512_reverse.json"]
          (Ok (Some "+15551234567"))
  /\ readLidReverseMapping (E := Numeric.world) "55512" (Some Sample.options)
     = MkRun [ReadFile "/srv/auth/lid-mapping-55512_reverse.json"]
             (Ok (Some "+15550001111")).
Proof.
  split.
  - apply (readLidReverseMapping_first_wins (E := Sample.world) "55512"
             (Some Sample.options) ["/srv/auth"] ["/etc/claw/credentials"]
             "/etc/claw/oauth" (Sample.quoted "15551234567")
             "+15551234567" (JString "15551234567")).
    + vm_compute. reflexivity.
    + intros d Hd. apply list_elem_of_singleton in Hd. subst d.
      apply (miss_null (E := Sample.world) _ "null"); vm_compute; reflexivity.
    + vm_compute. reflexivity.
    + vm_compute. reflexivity.
    + reflexivity.
    + vm_compute. reflexivity.
  - apply (readLidReverseMapping_first_wins (E := Numeric.world) "55512"
             (Some Sample.options) [] ["/etc/claw/oauth"; "/etc/claw/credentials"]
             "/srv/auth" "15550001111" "+15550001111" (JNumber "15550001111")).
    + vm_compute. reflexivity.
    + intros d Hd. by apply elem_of_nil in Hd.
    + vm_compute. reflexivity.
    + vm_compute. reflexivity.
    + reflexivity.
    + vm_compute. reflexivity.
Defined.

(** C1, as it is stated, fails twice.  In the first store the first directory's
    file is read and parsed to a string, a scalar that is not [null], which the
    normalizer rejects: the directory does not win, the next file is read and
    its number returned.  In the second store the first directory's file holds
    an array: it wins over the next directory, the first whose file holds a
    scalar. *)
Lemma readLidReverseMapping_first_scalar_loses :
  (resolveLidMappingDirs (E := Garbled.world) (Some Sample.options)
   = ["/srv/auth"; "/etc/claw/oauth"; "/etc/claw/credentials"]
   /\ fs (Env := Garbled.world) !! "/srv/auth/lid-mapping-55512_reverse.json"
      = Some (File (Sample.quoted "unknown"))
   /\ JSON_parse (Env := Garbled.world) (Sample.quoted "unknown")
      = Ok (JString "unknown")
   /\ is_scalar (JString "unknown") = true
   /\ readLidReverseMapping (E := Garbled.world) "55512" (Some Sample.options)
      = MkRun [ReadFile "/srv/auth/lid-mapping-55512_reverse.json";
               ReadFile "/etc/claw/oauth/lid-mapping-55512_reverse.json"]
              (Ok (Some "+15551234567")))
  /\ (resolveLidMappingDirs (E := Arrayed.world) (Some Sample.options)
      = ["/srv/auth"; "/etc/claw/oauth"; "/etc/claw/credentials"]
      /\ fs (Env := Arrayed.world) !! "/srv/auth/lid-mapping-55512_reverse.json"
         = Some (File ("[" +:+ Sample.quoted "15550001111" +:+ "]"))
      /\ JSON_parse (Env := Arrayed.world)
           ("[" +:+ Sample.quoted "15550001111" +:+ "]")
         = Ok (JArray [JString "15550001111"])
      /\ is_scalar (JArray [JString "15550001111"]) = false
      /\ fs (Env := Arrayed.world) !! "/etc/claw/oauth/lid-mapping-55512_reverse.json"
         = Some (File (Sample.quoted "15551234567"))
      /\ JSON_parse (Env := Arrayed.world) (Sample.quoted "15551234567")
         = Ok (JString "15551234567")
      /\ readLidReverseMapping (E := Arrayed.world) "55512" (Some Sample.options)
         = MkRun [ReadFile "/srv/auth/lid-mapping-55512_reverse.json"]
                 (Ok (Some "+15550001111"))).
Proof.
  split; repeat (split; [vm_compute; reflexivity|]); vm_compute; reflexivity.
Qed.

(** The mapping of LID 55512 is found in the OAuth directory, the second of
    three, and the decode of a JID of that LID returns it. *)
Example jidToE164_sample :
  jidToE164 (E := Sample.world) "55512:7@lid" (Some Sample.options)
  = MkRun [ReadFile "/srv/auth/lid-mapping-55512_reverse.json";
           ReadFile "/etc/claw/oauth/lid-mapping-55512_reverse.json"]
          (Ok (Some "+15551234567")).
Proof. vm_compute. reflexivity. Qed.

(** C7.  The directory set is the list of the given candidates in priority
    order (caller auth directory, caller extra directories, OAuth directory,
    default credentials directory), each resolved to its absolute path, every
    path kept once, at its first occurrence. *)
Theorem resolveLidMappingDirs_priority_order `{E : Env}
    (opts : option JidToE164Options) :
  resolveLidMappingDirs opts = priority_dirs opts
  /\ NoDup (resolveLidMappingDirs opts)
  /\ resolveLidMappingDirs opts
     `sublist_of` (resolveUserPath
                     <$> filter (fun d => d <> EmptyString) (candidate_dirs opts))
  /\ (forall p, p ∈ resolveLidMappingDirs opts <->
        exists d, d ∈ candidate_dirs opts /\ d <> EmptyString
                  /\ p = resolveUserPath d).
Proof.
  rewrite resolveLidMappingDirs_priority. unfold priority_dirs.
  split; [done|]. split; [apply first_occurrences_NoDup|].
  split; [apply first_occurrences_sublist|].
  intros p. rewrite first_occurrences_elem, list_elem_of_fmap.
  split.
  - intros (d & -> & Hd). apply list_elem_of_filter in Hd as [Hne Hin]. eauto.
  - intros (d & Hin & Hne & ->). exists d. split; [done|].
    by apply list_elem_of_filter.
Qed.

(** A caller whose auth directory is the OAuth directory, with an extra
    directory, an empty entry and the OAuth directory once more. *)
Example resolveLidMappingDirs_sample :
  resolveLidMappingDirs (E := Sample.world)
    (Some {| authDir := Some "/etc/claw/oauth";
             lidMappingDirs := Some ["/srv/extra"; EmptyString; "/etc/claw/oauth"];
             logMissing := None |})
  = ["/etc/claw/oauth"; "/srv/extra"; "/etc/claw/credentials"].
Proof. vm_compute. reflexivity. Qed.

(** C10.  Whatever the options, the directory set holds the resolved default
    credentials directory, and so is never empty. *)
Theorem resolveLidMappingDirs_has_default `{E : Env}
    (opts : option JidToE164Options) :
  resolveUserPath (path_join CONFIG_DIR "credentials") ∈ resolveLidMappingDirs opts
  /\ resolveLidMappingDirs opts <> [].
Proof.
  assert (resolveUserPath (path_join CONFIG_DIR "credentials")
          ∈ resolveLidMappingDirs opts) as Hin.
  { rewrite resolveLidMappingDirs_priority. unfold priority_dirs.
    rewrite first_occurrences_elem. apply list_elem_of_fmap_2.
    apply list_elem_of_filter. split; [apply path_join_nonempty|].
    unfold candidate_dirs. rewrite !elem_of_app, !elem_of_cons. auto. }
  split; [done|]. intros Hnil. rewrite Hnil in Hin. by apply elem_of_nil in Hin.
Qed.

(** C4.  A decode has two outcomes, a phone number (a string that is not
    empty) or [null], and never throws, for every JID, every option and every
    state of the file system; the same holds for the reverse-mapping lookup
    alone.  A directory whose file is missing, unreadable, not valid JSON or
    the JSON [null] is passed over: the scan reads its file and goes on as if
    it started at the next directory. *)
Theorem decode_never_throws `{E : Env} (jid lid filename dir : string)
    (rest : list string) (opts : option JidToE164Options) :
  (exists r, outcome (jidToE164 jid opts) = Ok r
             /\ (r = None \/ exists phone, r = Some phone /\ phone <> EmptyString))
  /\ (exists r, outcome (readLidReverseMapping lid opts) = Ok r)
  /\ (Miss (path_join dir filename) ->
      scan_dirs filename (dir :: rest)
      = MkRun (ReadFile (path_join dir filename) :: trace (scan_dirs filename rest))
              (outcome (scan_dirs filename rest))).
Proof.
  split; [|split].
  - destruct (jidToE164_total jid opts) as (r & Hr & [->|Htruthy]).
    + exists None. auto.
    + exists r. split; [done|]. right. destruct r as [phone|]; [|done].
      exists phone. split; [done|].
      by apply negb_true_iff, String.eqb_neq in Htruthy.
  - rewrite readLidReverseMapping_run. eauto.
  - intros Hmiss. rewrite !scan_dirs_run. simpl.
    rewrite (Miss_mapping_at _ Hmiss).
    by destruct (first_mapping filename rest).
Qed.

Lemma decode_never_throws_witness :
  scan_dirs (E := Sample.world) (mappingFilename "55512")
    ["/srv/auth"; "/etc/claw/oauth"]
  = MkRun (ReadFile "/srv/auth/lid-mapping-55512_reverse.json"
             :: trace (scan_dirs (E := Sample.world) (mappingFilename "55512")
                         ["/etc/claw/oauth"]))
          (outcome (scan_dirs (E := Sample.world) (mappingFilename "55512")
                      ["/etc/claw/oauth"])).
Proof.
  apply (decode_never_throws (E := Sample.world) "55512@lid" "55512"
           (mappingFilename "55512") "/srv/auth" ["/etc/claw/oauth"] None).
  apply (miss_null (E := Sample.world) _ "null"); vm_compute; reflexivity.
Defined.

(** C5.  For digits [d] and an optional device [s] (digits too), the JIDs
    [d:s@s.whatsapp.net], [d@s.whatsapp.net], [d:s@hosted] and [d@hosted]
    decode to [+d]: the device is ignored, and nothing is read or logged. *)
Theorem jidToE164_phone_jid `{E : Env} (d : string) (device : option string)
    (opts : option JidToE164Options) :
  Js.digit_string d = true ->
  from_option Js.digit_string true device = true ->
  jidToE164 (d +:+ device_suffix device +:+ "@s.whatsapp.net") opts
  = mret (Some ("+" +:+ d))
  /\ jidToE164 (d +:+ device_suffix device +:+ "@hosted") opts
     = mret (Some ("+" +:+ d)).
Proof.
  intros Hd Hdevice.
  assert (forall domain, domain ∈ PHONE_DOMAINS ->
            JidShape PHONE_DOMAINS
              (d +:+ device_suffix device +:+ "@" +:+ domain) d) as Hshape.
  { intros domain Hin. destruct device as [s|]; simpl in *.
    - by apply (shape_device PHONE_DOMAINS d s domain).
    - by apply (shape_plain PHONE_DOMAINS d domain). }
  split; apply jidToE164_phone, match_jid_complete.
  - apply (Hshape "s.whatsapp.net"). set_solver.
  - apply (Hshape "hosted"). set_solver.
Qed.

Lemma jidToE164_phone_jid_witness :
  jidToE164 (E := Sample.world) "15551234567:12@s.whatsapp.net" None
  = mret (Some "+15551234567")
  /\ jidToE164 (E := Sample.world) "15551234567:12@hosted" None
     = mret (Some "+15551234567").
Proof.
  apply (jidToE164_phone_jid (E := Sample.world) "15551234567" (Some "12") None);
    reflexivity.
Defined.




(** C2.  Take a LID-form JID whose LID has no mapping in any resolved
    directory, and a lookup capability that answers it with a JID [pn].  Then
    the resolver calls the capability once, with the JID it was given, and
    its result is the decode of [pn], phone number or [null]; when [pn] is a
    phone-bearing JID that is its number. *)
Theorem resolve_falls_back_to_lookup `{E : Env} (jid lid pn : string)
    (opts : option ResolveOptions) (lookup : string -> Result (option string)) :
  match_jid LID_DOMAINS jid = Some lid ->
  (forall dir, dir ∈ resolveLidMappingDirs (base <$> opts) ->
     mapping_at (path_join dir (mappingFilename lid)) = None) ->
  lookup_of opts = Some lookup ->
  lookup jid = Ok (Some pn) ->
  pn <> EmptyString ->
  resolveJidToE164 (Some jid) opts
  = MkRun (trace (jidToE164 jid (base <$> opts)) ++ CallLookup jid ::
             trace (jidToE164 pn (base <$> opts)))
          (outcome (jidToE164 pn (base <$> opts)))
  /\ (forall digits, match_jid PHONE_DOMAINS pn = Some digits ->
        outcome (resolveJidToE164 (Some jid) opts) = Ok (Some ("+" +:+ digits))).
Proof.
  intros Hlid Hnone Hlookup Hanswer Hpn.
  assert (resolveJidToE164 (Some jid) opts
          = MkRun (trace (jidToE164 jid (base <$> opts)) ++ CallLookup jid ::
                     trace (jidToE164 pn (base <$> opts)))
                  (outcome (jidToE164 pn (base <$> opts)))) as Hrun.
  { apply (resolve_lookup_answers jid pn opts None lookup); try done.
    - by eapply match_jid_nonempty.
    - eapply jidToE164_lid_unmapped; eauto using lid_is_no_phone.
    - by eapply lid_has_lid_suffix. }
  split; [done|].
  intros digits Hphone. rewrite Hrun. cbn [outcome].
  by rewrite (jidToE164_phone pn digits).
Qed.

Lemma resolve_falls_back_to_lookup_witness :
  outcome (resolveJidToE164 (E := Sample.world) (Some "77001@lid")
             (Some (Sample.with_lookup (Some Sample.answering))))
  = Ok (Some "+15557654321").
Proof.
  apply (resolve_falls_back_to_lookup (E := Sample.world) "77001@lid" "77001"
           "15557654321:2@s.whatsapp.net"
           (Some (Sample.with_lookup (Some Sample.answering)))
           Sample.answering).
  - reflexivity.
  - intros dir Hdir. vm_compute in Hdir.
    repeat (apply elem_of_cons in Hdir as [->|Hdir]; [vm_compute; reflexivity|]).
    by apply elem_of_nil in Hdir.
  - reflexivity.
  - reflexivity.
  - discriminate.
  - reflexivity.
Defined.

(** C3.  The resolver does not absorb every failure of the lookup capability.
    With the verbose switch on, the [catch] block converts what was thrown to
    a string for its log line; a capability that rejects with a value that has
    no string form makes that conversion throw inside the [catch], and the
    resolver's promise rejects.  With the switch off the same failure gives
    [null]. *)
Theorem resolve_lookup_failure_escapes :
  shouldLogVerbose (Env := Sample.world) = true
  /\ Rejections.opaque "77001@lid" = Throw (Unprintable TypeError)
  /\ resolveJidToE164 (E := Sample.world) (Some "77001@lid")
       (Some (Sample.with_lookup (Some Rejections.opaque)))
     = MkRun [ReadFile "/srv/auth/lid-mapping-77001_reverse.json";
              ReadFile "/etc/claw/oauth/lid-mapping-77001_reverse.json";
              ReadFile "/etc/claw/credentials/lid-mapping-77001_reverse.json";
              LogVerbose "LID mapping not found for 77001; skipping inbound message";
              CallLookup "77001@lid"]
             (Throw TypeError)
  /\ outcome (resolveJidToE164 (E := Sample.env false Sample.files)
                (Some "77001@lid")
                (Some (Sample.with_lookup (Some Rejections.opaque))))
     = Ok None.
Proof.
  split; [reflexivity|]. split; [reflexivity|].
  split; vm_compute; reflexivity.
Qed.

(** C8.  The resolver gives [null] and does not invoke the lookup capability,
    whatever capability the options hold, (a) for an absent or empty JID,
    where it does nothing at all, (b) when the decode gives [null] and the JID
    has no LID suffix, and (c) when the decode gives [null] and the options
    hold no capability. *)
Theorem resolve_without_lookup `{E : Env} (jid : string)
    (opts : option ResolveOptions) :
  resolveJidToE164 None opts = mret None
  /\ resolveJidToE164 (Some EmptyString) opts = mret None
  /\ (outcome (jidToE164 jid (base <$> opts)) = Ok None ->
      test_lid_suffix jid = false \/ lookup_of opts = None ->
      outcome (resolveJidToE164 (Some jid) opts) = Ok None
      /\ ~ invokes_lookup (resolveJidToE164 (Some jid) opts)).
Proof.
  split; [reflexivity|]. split; [reflexivity|].
  intros Hdirect Hcase.
  destruct (decide (jid = EmptyString)) as [->|Hne].
  { split; [done|]. intros [j Hj]. by apply elem_of_nil in Hj. }
  rewrite (resolve_no_fallback jid opts None) by done.
  split; [done|]. intros Hinv. by apply (jidToE164_no_lookup jid (base <$> opts)).
Qed.

Lemma resolve_without_lookup_witness :
  outcome (resolveJidToE164 (E := Sample.world) (Some "120363041234567890@g.us")
             (Some (Sample.with_lookup (Some Sample.answering))))
  = Ok None
  /\ outcome (resolveJidToE164 (E := Sample.world) (Some "77001@lid")
                (Some (Sample.with_lookup None)))
     = Ok None.
Proof.
  split.
  - apply (resolve_without_lookup (E := Sample.world) "120363041234567890@g.us"
             (Some (Sample.with_lookup (Some Sample.answering)))).
    + vm_compute. reflexivity.
    + left. vm_compute. reflexivity.
  - apply (resolve_without_lookup (E := Sample.world) "77001@lid"
             (Some (Sample.with_lookup None))).
    + vm_compute. reflexivity.
    + right. reflexivity.
Defined.

(** C9, as the code has it.  [toJid] drops a [whatsapp:] prefix that stands at
    the very start of its input, then trims white space; a remainder that
    holds an [@] is returned as it is, any other is normalized, stripped of
    its non-digits and given the suffix [@s.whatsapp.net].  So, for [c] that
    does not start with the prefix and white space [w1], [w2], the inputs
    [w1 c w2] and [whatsapp: w1 c w2] give what [c] gives.  With a normalizer
    that reads [+1 (555) 123-4567] as [+15551234567], that input gives
    [15551234567@s.whatsapp.net]. *)
Theorem toWhatsappJid_prefix_then_space `{E : Env} (c w1 w2 : string) :
  Js.WhiteSpace w1 -> Js.WhiteSpace w2 ->
  Js.startsWith "whatsapp:" c = false ->
  (forall number,
     let remainder := Js.trim (Js.strip_prefix "whatsapp:" number) in
     toWhatsappJid number
     = if Js.includes "@" remainder then Ok remainder
       else e164 ← normalizeE164 remainder;
            Ok (Js.remove_non_digits e164 +:+ "@s.whatsapp.net"))
  /\ toWhatsappJid (w1 +:+ c +:+ w2) = toWhatsappJid c
  /\ toWhatsappJid ("whatsapp:" +:+ w1 +:+ c +:+ w2) = toWhatsappJid c
  /\ (normalizeE164 "+1 (555) 123-4567" = Ok "+15551234567" ->
      toWhatsappJid "+1 (555) 123-4567" = Ok "15551234567@s.whatsapp.net").
Proof.
  intros Hw1 Hw2 Hc. split; [reflexivity|].
  assert (Js.strip_prefix "whatsapp:" (w1 +:+ c +:+ w2) = w1 +:+ c +:+ w2) as Hkeep.
  { apply strip_prefix_absent. destruct (decide (w1 = EmptyString)) as [->|Hne].
    - change (EmptyString +:+ c +:+ w2) with (c +:+ w2).
      apply startsWith_before_blank; [reflexivity|done..].
    - apply WhiteSpace_no_prefix; [done..|reflexivity]. }
  split; [|split].
  - unfold toWhatsappJid. rewrite Hkeep, (strip_prefix_absent _ c) by done.
    by rewrite trim_blank.
  - unfold toWhatsappJid.
    rewrite (strip_prefix_sapp "whatsapp:"), (strip_prefix_absent _ c) by done.
    by rewrite trim_blank.
  - intros Hnorm. unfold toWhatsappJid.
    change (Js.trim (Js.strip_prefix "whatsapp:" "+1 (555) 123-4567"))
      with "+1 (555) 123-4567".
    change (Js.includes "@" "+1 (555) 123-4567") with false.
    cbv iota. by rewrite Hnorm.
Qed.

Lemma toWhatsappJid_prefix_then_space_witness :
  toWhatsappJid (E := Sample.world) ("  " +:+ "+1 (555) 123-4567" +:+ " ")
  = Ok "15551234567@s.whatsapp.net"
  /\ toWhatsappJid (E := Sample.world)
       ("whatsapp:" +:+ "  " +:+ "+1 (555) 123-4567" +:+ " ")
     = Ok "15551234567@s.whatsapp.net".
Proof.
  assert (Js.WhiteSpace "  ") as H1
    by (apply Js.blank_1; [reflexivity|];
        apply Js.blank_1; [reflexivity|]; apply Js.blank_nil).
  assert (Js.WhiteSpace " ") as H2
    by (apply Js.blank_1; [reflexivity|]; apply Js.blank_nil).
  destruct (toWhatsappJid_prefix_then_space (E := Sample.world)
              "+1 (555) 123-4567" "  " " " H1 H2 eq_refl)
    as (_ & Hspace & Hprefix & Hscenario).
  rewrite Hspace, Hprefix. split; apply Hscenario; reflexivity.
Defined.

(** C9, as it is stated, fails: a space before the prefix keeps the prefix
    from being dropped, so two inputs that differ in surrounding white space
    only give different results. *)
Lemma toWhatsappJid_space_before_prefix :
  Js.WhiteSpace " "
  /\ toWhatsappJid (E := Sample.world) "whatsapp:15551234567@s.whatsapp.net"
     = Ok "15551234567@s.whatsapp.net"
  /\ toWhatsappJid (E := Sample.world)
       (" " +:+ "whatsapp:15551234567@s.whatsapp.net")
     = Ok "whatsapp:15551234567@s.whatsapp.net"
  /\ toWhatsappJid (E := Sample.world)
       (" " +:+ "whatsapp:15551234567@s.whatsapp.net")
     <> toWhatsappJid (E := Sample.world) "whatsapp:15551234567@s.whatsapp.net".
Proof.
  split; [apply Js.blank_1; [reflexivity|apply Js.blank_nil]|].
  split; [reflexivity|]. split; [reflexivity|]. discriminate.
Qed.

(** * Further properties of the module *)

(** ** The prefix and the conversion to a JID *)

Lemma startsWith_drop_prefix (p s : string) :
  Js.startsWith p s = true -> exists r, Js.drop_prefix p s = Some r.
Proof.
  revert s. induction p as [|a p IH]; intros [|b s]; simpl; try done; eauto.
  destruct (Ascii.eqb a b); simpl; [apply IH|done].
Qed.

Lemma withWhatsAppPrefix_strip `{E : Env} (number : string) :
  withWhatsAppPrefix number = "whatsapp:" +:+ Js.strip_prefix "whatsapp:" number.
Proof.
  unfold withWhatsAppPrefix, Js.strip_prefix.
  destruct (Js.startsWith "whatsapp:" number) eqn:Hstart.
  - destruct (startsWith_drop_prefix _ _ Hstart) as [r Hr]. rewrite Hr.
    by apply drop_prefix_spec in Hr.
  - by rewrite drop_prefix_startsWith.
Qed.

(** X1.  [withWhatsAppPrefix] gives [whatsapp:] followed by the number it was
    given, less the prefix the number may start with; applied twice it gives
    what it gives once. *)
Theorem withWhatsAppPrefix_once `{E : Env} (number : string) :
  withWhatsAppPrefix number
  = "whatsapp:" +:+ Js.strip_prefix "whatsapp:" number
  /\ withWhatsAppPrefix (withWhatsAppPrefix number) = withWhatsAppPrefix number.
Proof.
  split; [apply withWhatsAppPrefix_strip|apply withWhatsAppPrefix_idempotent].
Qed.

(** X2.  A number gives the same JID with and without the prefix
    [withWhatsAppPrefix] puts before it. *)
Theorem toWhatsappJid_withWhatsAppPrefix `{E : Env} (number : string) :
  toWhatsappJid (withWhatsAppPrefix number) = toWhatsappJid number.
Proof.
  unfold toWhatsappJid.
  rewrite withWhatsAppPrefix_strip, strip_prefix_sapp. reflexivity.
Qed.

Lemma all_digits_remove_non_digits (s : string) :
  Js.all_digits (Js.remove_non_digits s) = true.
Proof.
  induction s as [|a s IH]; simpl; [done|].
  destruct (Js.is_digit a) eqn:Ha; simpl; [by rewrite Ha|done].
Qed.

(** A string whose first byte starts no white space character loses nothing
    at its start. *)
Lemma strip_leading_stuck w1 w2 w3 (a : ascii) (s : string) :
  w1 a = false -> (forall b, w2 a b = false) -> (forall b c, w3 a b c = false) ->
  Js.strip_leading w1 w2 w3 (String a s) = String a s.
Proof.
  intros H1 H2 H3. simpl. rewrite H1.
  destruct s as [|b [|c r]]; [done|by rewrite H2|by rewrite H2, H3].
Qed.

Lemma is_digit_code (a : ascii) :
  Js.is_digit a = true -> 48 <= nat_of_ascii a <= 57.
Proof. unfold Js.is_digit. intros. bool_lia. Qed.

Lemma trimStart_stuck (a : ascii) (s : string) :
  Js.ws_lead a = false -> Js.trimStart (String a s) = String a s.
Proof.
  intros Ha. apply strip_leading_stuck; intros;
    unfold Js.ws_lead, Js.ws1, Js.ws2, Js.ws3 in *; bool_lia.
Qed.

(** The JIDs [toWhatsappJid] builds are trimmed. *)
Lemma trim_phone_jid (digits : string) :
  Js.all_digits digits = true ->
  Js.trim (digits +:+ "@s.whatsapp.net") = digits +:+ "@s.whatsapp.net".
Proof.
  intros Hd. unfold Js.trim.
  assert (Js.trimStart (digits +:+ "@s.whatsapp.net")
          = digits +:+ "@s.whatsapp.net") as ->.
  { destruct digits as [|a d]; [reflexivity|].
    simpl in Hd. apply andb_true_iff in Hd as [Ha _].
    apply is_digit_code in Ha.
    apply trimStart_stuck. unfold Js.ws_lead, Js.ws1. bool_lia. }
  unfold Js.trimEnd. rewrite rev_sapp.
  change (String.rev "@s.whatsapp.net") with "ten.ppastahw.s@".
  change ("ten.ppastahw.s@" +:+ String.rev digits)
    with (String "t" ("en.ppastahw.s@" +:+ String.rev digits)).
  rewrite strip_leading_stuck.
  - change (String "t" ("en.ppastahw.s@" +:+ String.rev digits))
      with (String.rev "@s.whatsapp.net" +:+ String.rev digits).
    by rewrite <- rev_sapp, rev_involutive.
  - reflexivity.
  - intros b. unfold Js.ws2. change (nat_of_ascii "t") with 116. bool_lia.
  - intros b c. unfold Js.ws3. change (nat_of_ascii "t") with 116. bool_lia.
Qed.

Lemma strip_prefix_phone_jid (digits : string) :
  Js.all_digits digits = true ->
  Js.strip_prefix "whatsapp:" (digits +:+ "@s.whatsapp.net")
  = digits +:+ "@s.whatsapp.net".
Proof.
  intros Hd. apply strip_prefix_absent.
  destruct digits as [|a d]; [reflexivity|].
  simpl in Hd. apply andb_true_iff in Hd as [Ha _]. apply is_digit_code in Ha.
  cbn [Js.startsWith String.append].
  destruct (Ascii.eqb_spec "w" a) as [<-|]; [|reflexivity].
  vm_compute in Ha. lia.
Qed.

(** X3.  Every JID [toWhatsappJid] returns holds an [@].  One it built from a
    phone number (a remainder without [@]) is digits and [@s.whatsapp.net],
    and is a fixed point: given back to [toWhatsappJid] it is returned as it
    is, without a call of the normalizer. *)
Theorem toWhatsappJid_stable `{E : Env} (number jid : string) :
  toWhatsappJid number = Ok jid ->
  Js.includes "@" jid = true
  /\ (Js.includes "@" (Js.trim (Js.strip_prefix "whatsapp:" number)) = false ->
      (exists digits, Js.all_digits digits = true
                      /\ jid = digits +:+ "@s.whatsapp.net")
      /\ forall E' : Env, toWhatsappJid (E := E') jid = Ok jid).
Proof.
  unfold toWhatsappJid at 1.
  destruct (Js.includes "@" (Js.trim _)) eqn:Hat.
  - intros [= <-]. split; [done|]. done.
  - destruct (normalizeE164 _) as [e164|e]; simpl; [|done].
    intros [= <-].
    pose proof (all_digits_remove_non_digits e164) as Hd.
    split; [rewrite includes_sapp; apply orb_true_r|].
    intros _. split; [eauto|].
    intros E'. unfold toWhatsappJid.
    rewrite strip_prefix_phone_jid, trim_phone_jid by done.
    by rewrite includes_sapp, orb_true_r.
Qed.

Lemma toWhatsappJid_stable_witness :
  Js.includes "@" "15551234567@s.whatsapp.net" = true
  /\ toWhatsappJid (E := Sample.world) "15551234567@s.whatsapp.net"
     = Ok "15551234567@s.whatsapp.net".
Proof.
  destruct (toWhatsappJid_stable (E := Sample.world) "whatsapp:+1 555 123 4567"
              "15551234567@s.whatsapp.net" eq_refl) as [Hat Hrest].
  split; [exact Hat|]. apply (Hrest eq_refl).
Defined.

(** X4.  The round trip without a condition on the normalizer's output: when
    the remainder of [number] holds no [@] and the normalizer gives [e164] for
    it, decoding [toWhatsappJid number] gives [+] and the digits of [e164],
    and [null] when [e164] has no digit: the JID is then the bare suffix
    [@s.whatsapp.net], which no pattern matches.  Nothing is read or logged. *)
Theorem toWhatsappJid_then_decode `{E : Env} (number e164 : string)
    (opts : option JidToE164Options) :
  Js.includes "@" (Js.trim (Js.strip_prefix "whatsapp:" number)) = false ->
  normalizeE164 (Js.trim (Js.strip_prefix "whatsapp:" number)) = Ok e164 ->
  toWhatsappJid number = Ok (Js.remove_non_digits e164 +:+ "@s.whatsapp.net")
  /\ jidToE164 (Js.remove_non_digits e164 +:+ "@s.whatsapp.net") opts
     = mret (if String.eqb (Js.remove_non_digits e164) EmptyString then None
             else Some ("+" +:+ Js.remove_non_digits e164)).
Proof.
  intros Hat Hnorm. split.
  - unfold toWhatsappJid. by rewrite Hat, Hnorm.
  - pose proof (all_digits_remove_non_digits e164) as Hd.
    destruct (String.eqb_spec (Js.remove_non_digits e164) EmptyString) as [->|Hne].
    + reflexivity.
    + apply jidToE164_phone, match_jid_complete.
      apply (shape_plain PHONE_DOMAINS _ "s.whatsapp.net"); [|set_solver].
      by apply digit_string_spec.
Qed.

Lemma toWhatsappJid_then_decode_witness :
  toWhatsappJid (E := Sample.world) " +44 20 7946 0958 "
  = Ok "442079460958@s.whatsapp.net"
  /\ jidToE164 (E := Sample.world) "442079460958@s.whatsapp.net" None
     = mret (Some "+442079460958").
Proof.
  apply (toWhatsappJid_then_decode (E := Sample.world) " +44 20 7946 0958 "
           "+442079460958" None); reflexivity.
Defined.

(** ** Self-chat mode *)

Section SelfChatFacts.
Context `{E : Env}.

Lemma existsb_elem {A} (f : A -> bool) (l : list A) :
  existsb f l = true <-> exists x, x ∈ l /\ f x = true.
Proof.
  rewrite existsb_exists. by setoid_rewrite list_elem_of_In.
Qed.

Lemma entry_matches_spec (q : string) (n : AllowEntry) :
  entry_matches q n = true
  <-> is_wildcard n = false /\ normalizeE164 (entry_text n) = Ok q.
Proof.
  unfold entry_matches. destruct (is_wildcard n); [naive_solver|].
  destruct (normalizeE164 (entry_text n)) as [e164|e]; [|naive_solver].
  rewrite String.eqb_eq. naive_solver.
Qed.

(** The function past its guards. *)
Lemma isSelfChatMode_entries (s : string) (entries : list AllowEntry) :
  s <> EmptyString -> entries <> [] ->
  isSelfChatMode (Some s) (Some entries)
  = normalizedSelf ← normalizeE164 s;
    Ok (existsb (entry_matches normalizedSelf) entries).
Proof.
  intros Hs Hentries. unfold isSelfChatMode. simpl.
  apply String.eqb_neq in Hs as ->. simpl. by destruct entries.
Qed.

Lemma isSelfChatMode_no_list (selfE164 : option string) :
  isSelfChatMode selfE164 None = Ok false.
Proof. unfold isSelfChatMode. by destruct (negb _). Qed.

Lemma isSelfChatMode_empty_list (selfE164 : option string) :
  isSelfChatMode selfE164 (Some []) = Ok false.
Proof. unfold isSelfChatMode. by destruct (negb _). Qed.

End SelfChatFacts.

(** X5.  [isSelfChatMode] answers [true] exactly when the own number is not
    empty, the normalizer gives a form of it, and some entry of [allowFrom]
    other than the wildcard ["*"] normalizes to the same form. *)
Theorem isSelfChatMode_true `{E : Env} (selfE164 : option string)
    (allowFrom : option (list AllowEntry)) :
  isSelfChatMode selfE164 allowFrom = Ok true
  <-> exists s entries q n,
        selfE164 = Some s /\ s <> EmptyString /\ allowFrom = Some entries
        /\ normalizeE164 s = Ok q
        /\ n ∈ entries /\ is_wildcard n = false
        /\ normalizeE164 (entry_text n) = Ok q.
Proof.
  split.
  - destruct selfE164 as [s|]; [|done].
    destruct (decide (s = EmptyString)) as [->|Hs]; [done|].
    destruct allowFrom as [entries|]; [|by rewrite isSelfChatMode_no_list].
    destruct (decide (entries = [])) as [->|Hentries];
      [by rewrite isSelfChatMode_empty_list|].
    rewrite isSelfChatMode_entries by done.
    destruct (normalizeE164 s) as [q|e] eqn:Hq; simpl; [|done].
    intros [= Hsome]. apply existsb_elem in Hsome as (n & Hin & Hn).
    apply entry_matches_spec in Hn as [Hw Hn].
    by exists s, entries, q, n.
  - intros (s & entries & q & n & -> & Hs & -> & Hq & Hin & Hw & Hn).
    rewrite isSelfChatMode_entries; [|done|by intros ->; apply elem_of_nil in Hin].
    rewrite Hq. simpl. f_equal. apply existsb_elem. exists n.
    split; [done|]. by apply entry_matches_spec.
Qed.

(** X6.  [isSelfChatMode] throws only what the normalizer throws for the own
    number, and only past its guards (a number that is not empty, a list that
    is not empty); an entry the normalizer rejects never makes it throw. *)
Theorem isSelfChatMode_throws `{E : Env} (selfE164 : option string)
    (allowFrom : option (list AllowEntry)) (e : JsError) :
  isSelfChatMode selfE164 allowFrom = Throw e
  <-> exists s entries,
        selfE164 = Some s /\ s <> EmptyString
        /\ allowFrom = Some entries /\ entries <> []
        /\ normalizeE164 s = Throw e.
Proof.
  split.
  - destruct selfE164 as [s|]; [|done].
    destruct (decide (s = EmptyString)) as [->|Hs]; [done|].
    destruct allowFrom as [entries|]; [|by rewrite isSelfChatMode_no_list].
    destruct (decide (entries = [])) as [->|Hentries];
      [by rewrite isSelfChatMode_empty_list|].
    rewrite isSelfChatMode_entries by done.
    destruct (normalizeE164 s) as [q|e'] eqn:Hq; simpl; [done|].
    intros [= ->]. by exists s, entries.
  - intros (s & entries & -> & Hs & -> & Hentries & Hq).
    rewrite isSelfChatMode_entries by done. by rewrite Hq.
Qed.

(** X7.  The wildcard does not count as the own number: putting ["*"] before
    the entries of a list that is not empty changes nothing, and a list of
    wildcards only never gives [true]. *)
Theorem isSelfChatMode_wildcard `{E : Env} (selfE164 : option string)
    (entries : list AllowEntry) :
  (entries <> [] ->
   isSelfChatMode selfE164 (Some (AllowString "*" :: entries))
   = isSelfChatMode selfE164 (Some entries))
  /\ ((forall n, n ∈ entries -> is_wildcard n = true) ->
      isSelfChatMode selfE164 (Some entries) <> Ok true).
Proof.
  split.
  - intros Hentries.
    destruct selfE164 as [s|]; [|done].
    destruct (decide (s = EmptyString)) as [->|Hs]; [done|].
    by rewrite !isSelfChatMode_entries.
  - intros Hall Htrue.
    apply isSelfChatMode_true in Htrue
      as (s & l & q & n & _ & _ & [= <-] & _ & Hin & Hw & _).
    rewrite (Hall n Hin) in Hw. done.
Qed.

(** X8.  The answer depends on which entries [allowFrom] holds, not on their
    order or on how often one occurs. *)
Theorem isSelfChatMode_same_entries `{E : Env} (selfE164 : option string)
    (entries entries' : list AllowEntry) :
  (forall n, n ∈ entries <-> n ∈ entries') ->
  isSelfChatMode selfE164 (Some entries) = isSelfChatMode selfE164 (Some entries').
Proof.
  intros Hsame.
  destruct selfE164 as [s|]; [|done].
  destruct (decide (s = EmptyString)) as [->|Hs]; [done|].
  destruct (decide (entries = [])) as [->|Hentries].
  { assert (entries' = []) as ->; [|done].
    apply elem_of_nil_inv. intros n Hn. apply Hsame in Hn.
    by apply elem_of_nil in Hn. }
  assert (entries' <> []) as Hentries'.
  { intros ->. destruct entries as [|n l]; [done|].
    by apply (elem_of_nil n), Hsame; left. }
  rewrite !isSelfChatMode_entries by done.
  destruct (normalizeE164 s) as [q|e]; simpl; [|done]. f_equal.
  apply eq_true_iff_eq. rewrite !existsb_elem. naive_solver.
Qed.

Lemma isSelfChatMode_same_entries_witness :
  isSelfChatMode (E := Sample.world) (Some "+1 555 123 4567")
    (Some [AllowString "*"; AllowNumber "15551234567"])
  = isSelfChatMode (E := Sample.world) (Some "+1 555 123 4567")
      (Some [AllowNumber "15551234567"; AllowString "*"; AllowNumber "15551234567"]).
Proof.
  apply (isSelfChatMode_same_entries (E := Sample.world)).
  intros n. rewrite !elem_of_cons. tauto.
Defined.

Lemma isSelfChatMode_true_witness :
  isSelfChatMode (E := Sample.world) (Some "+1 555 123 4567")
    (Some [AllowString "*"; AllowString "(555) 000-0000"; AllowNumber "15551234567"])
  = Ok true.
Proof.
  apply (isSelfChatMode_true (E := Sample.world)).
  exists "+1 555 123 4567",
    [AllowString "*"; AllowString "(555) 000-0000"; AllowNumber "15551234567"],
    "+15551234567", (AllowNumber "15551234567").
  repeat split; try reflexivity; [discriminate|set_solver].
Defined.

(** ** The directories and the scan *)

(** X9.  A caller's auth directory, when given, is the first directory of the
    set: its mapping files take precedence over every other store. *)
Theorem resolveLidMappingDirs_auth_first `{E : Env} (o : JidToE164Options)
    (dir : string) :
  authDir o = Some dir -> dir <> EmptyString ->
  exists rest, resolveLidMappingDirs (Some o) = resolveUserPath dir :: rest.
Proof.
  intros Hauth Hdir. rewrite resolveLidMappingDirs_priority.
  unfold priority_dirs, candidate_dirs. simpl. rewrite Hauth. simpl.
  rewrite filter_cons_True by done. simpl. eauto.
Qed.

Lemma resolveLidMappingDirs_auth_first_witness :
  exists rest,
    resolveLidMappingDirs (E := Sample.world) (Some Sample.options)
    = "/srv/auth" :: rest.
Proof.
  apply (resolveLidMappingDirs_auth_first (E := Sample.world) Sample.options
           "/srv/auth"); [reflexivity|discriminate].
Defined.

(** X10.  When no directory holds a mapping for the LID, the lookup returns
    [null], and it has read the file of every directory of the set, once, in
    priority order. *)
Theorem readLidReverseMapping_all_miss `{E : Env} (lid : string)
    (opts : option JidToE164Options) :
  (forall dir, dir ∈ resolveLidMappingDirs opts ->
     mapping_at (path_join dir (mappingFilename lid)) = None) ->
  readLidReverseMapping lid opts
  = MkRun (ReadFile <$> ((fun dir => path_join dir (mappingFilename lid))
                           <$> resolveLidMappingDirs opts))
          (Ok None).
Proof.
  intros Hnone. by rewrite readLidReverseMapping_run, first_mapping_none.
Qed.

Lemma readLidReverseMapping_all_miss_witness :
  readLidReverseMapping (E := Sample.world) "77001" (Some Sample.options)
  = MkRun [ReadFile "/srv/auth/lid-mapping-77001_reverse.json";
           ReadFile "/etc/claw/oauth/lid-mapping-77001_reverse.json";
           ReadFile "/etc/claw/credentials/lid-mapping-77001_reverse.json"]
          (Ok None).
Proof.
  apply (readLidReverseMapping_all_miss (E := Sample.world) "77001"
           (Some Sample.options)).
  intros dir Hdir. vm_compute in Hdir.
  repeat (apply elem_of_cons in Hdir as [->|Hdir]; [vm_compute; reflexivity|]).
  by apply elem_of_nil in Hdir.
Defined.

(** X11.  A mapping file whose value cannot be used is passed over like a
    missing one: when the conversion of the parsed value to a string throws,
    or the normalizer rejects the string, the scan goes on with the next
    directory and the failure is not seen. *)
Theorem scan_dirs_skips_rejected `{E : Env} (filename dir data : string)
    (rest : list string) (phone : JsonValue) (e : JsError) :
  fs !! path_join dir filename = Some (File data) ->
  JSON_parse data = Ok phone ->
  js_String phone ≫= normalizeE164 = Throw e ->
  scan_dirs filename (dir :: rest)
  = MkRun (ReadFile (path_join dir filename) :: trace (scan_dirs filename rest))
          (outcome (scan_dirs filename rest)).
Proof.
  intros Hfile Hparse Hreject. rewrite !scan_dirs_run. simpl.
  unfold mapping_at at 1 2. rewrite Hfile, Hparse, Hreject.
  destruct (is_null phone); by destruct (first_mapping filename rest).
Qed.

Lemma scan_dirs_skips_rejected_witness :
  scan_dirs (E := Garbled.world) (mappingFilename "55512")
    ["/srv/auth"; "/etc/claw/oauth"]
  = MkRun [ReadFile "/srv/auth/lid-mapping-55512_reverse.json";
           ReadFile "/etc/claw/oauth/lid-mapping-55512_reverse.json"]
          (Ok (Some "+15551234567")).
Proof.
  apply (scan_dirs_skips_rejected (E := Garbled.world) (mappingFilename "55512")
           "/srv/auth" (Sample.quoted "unknown") ["/etc/claw/oauth"]
           (JString "unknown") (Failure "invalid phone number"));
    vm_compute; reflexivity.
Defined.

(** ** The decode *)

Lemma log_lines_reads (paths : list string) :
  omap (fun ev => match ev with LogVerbose m => Some m | _ => None end)
    (ReadFile <$> paths) = [].
Proof. induction paths as [|p l IH]; [done|]. simpl. exact IH. Qed.

Lemma lookup_calls_reads (paths : list string) :
  omap (fun ev => match ev with CallLookup j => Some j | _ => None end)
    (ReadFile <$> paths) = [].
Proof. induction paths as [|p l IH]; [done|]. simpl. exact IH. Qed.

Lemma match_jid_endsWith (domains : list string) (jid digits : string) :
  match_jid domains jid = Some digits ->
  exists domain, domain ∈ domains /\ Js.endsWith ("@" +:+ domain) jid = true.
Proof.
  intros H. apply match_jid_sound, JidShape_tail in H as (front & domain & Hin & ->).
  exists domain. split; [done|]. apply endsWith_sapp.
Qed.

Lemma phone_is_no_lid (jid digits : string) :
  match_jid PHONE_DOMAINS jid = Some digits -> match_jid LID_DOMAINS jid = None.
Proof.
  apply match_jid_disjoint. intros x Hx Hx'.
  unfold LID_DOMAINS, PHONE_DOMAINS in *.
  repeat (apply elem_of_cons in Hx as [->|Hx]);
    repeat (apply elem_of_cons in Hx' as [Hx'|Hx']);
    try discriminate; try by apply elem_of_nil in Hx'.
  all: by apply elem_of_nil in Hx.
Qed.

Section DecodeMore.
Context `{E : Env}.

(** The decode of a JID of LID form, as a function of the LID. *)
Lemma jidToE164_lid (jid lid : string) (opts : option JidToE164Options) :
  match_jid LID_DOMAINS jid = Some lid ->
  jidToE164 jid opts
  = (let found :=
       (first_mapping (mappingFilename lid) (resolveLidMappingDirs opts)).2 in
     MkRun ((ReadFile <$> ((fun dir => path_join dir (mappingFilename lid))
               <$> (first_mapping (mappingFilename lid)
                      (resolveLidMappingDirs opts)).1))
            ++ (if truthy found then []
                else if default shouldLogVerbose (opts ≫= logMissing)
                     then [LogVerbose ("LID mapping not found for " +:+ lid
                                       +:+ "; skipping inbound message")]
                     else []))
           (Ok (if truthy found then found else None))).
Proof.
  intros Hlid. unfold jidToE164.
  rewrite (lid_is_no_phone jid lid Hlid), Hlid, readLidReverseMapping_run.
  destruct (first_mapping _ _) as [tried found]. cbn [fst snd].
  rewrite (bind_ok _ _ found) by done. cbn [trace outcome].
  destruct (truthy found); [reflexivity|].
  by destruct (default shouldLogVerbose (opts ≫= logMissing)).
Qed.

Lemma jidToE164_unmatched (jid : string) (opts : option JidToE164Options) :
  match_jid PHONE_DOMAINS jid = None -> match_jid LID_DOMAINS jid = None ->
  jidToE164 jid opts = mret None.
Proof. intros H1 H2. unfold jidToE164. by rewrite H1, H2. Qed.

End DecodeMore.

(** X12.  The decode of a LID-form JID depends on the LID alone: the device
    and the choice between [@lid] and [@hosted.lid] change neither the result
    nor the files read nor what is logged. *)
Theorem jidToE164_lid_only `{E : Env} (jid jid' lid : string)
    (opts : option JidToE164Options) :
  match_jid LID_DOMAINS jid = Some lid ->
  match_jid LID_DOMAINS jid' = Some lid ->
  jidToE164 jid opts = jidToE164 jid' opts.
Proof.
  intros H H'. by rewrite (jidToE164_lid jid lid), (jidToE164_lid jid' lid).
Qed.

Lemma jidToE164_lid_only_witness :
  jidToE164 (E := Sample.world) "55512@lid" (Some Sample.options)
  = jidToE164 (E := Sample.world) "55512:7@hosted.lid" (Some Sample.options).
Proof.
  apply (jidToE164_lid_only (E := Sample.world) "55512@lid" "55512:7@hosted.lid"
           "55512"); reflexivity.
Defined.

(** X13.  The decode writes a log line in one case only: a JID of LID form was
    decoded to [null] and logging is on, where the call's [logMissing] decides
    when it is given and the verbose switch decides otherwise.  The line names
    the LID. *)
Theorem jidToE164_log_lines `{E : Env} (jid : string)
    (opts : option JidToE164Options) :
  log_lines (jidToE164 jid opts)
  = match match_jid LID_DOMAINS jid, outcome (jidToE164 jid opts) with
    | Some lid, Ok None =>
        if default shouldLogVerbose (opts ≫= logMissing)
        then ["LID mapping not found for " +:+ lid +:+ "; skipping inbound message"]
        else []
    | _, _ => []
    end.
Proof.
  destruct (match_jid LID_DOMAINS jid) as [lid|] eqn:Hlid.
  - rewrite (jidToE164_lid jid lid) by done. unfold log_lines.
    cbn [trace outcome]. rewrite omap_app, log_lines_reads.
    destruct (first_mapping _ _) as [tried found]. cbn [fst snd].
    destruct (truthy found) eqn:Hfound.
    + destruct found; [done|discriminate].
    + by destruct (default shouldLogVerbose (opts ≫= logMissing)).
  - destruct (match_jid PHONE_DOMAINS jid) as [digits|] eqn:Hphone.
    + by rewrite (jidToE164_phone jid digits).
    + by rewrite jidToE164_unmatched.
Qed.

(** X14.  A JID that ends in none of [@s.whatsapp.net], [@hosted], [@lid] and
    [@hosted.lid] (a group address, say) is decoded to [null] without a file
    read or a log line, and resolved to [null] without a call of the lookup
    capability, whatever the options. *)
Theorem unknown_suffix_is_null `{E : Env} (jid : string)
    (opts : option JidToE164Options) (ropts : option ResolveOptions) :
  known_suffix jid = false ->
  jidToE164 jid opts = mret None
  /\ resolveJidToE164 (Some jid) ropts = mret None.
Proof.
  intros Hsuffix. unfold known_suffix in Hsuffix.
  apply orb_false_iff in Hsuffix as [Hphone Hlid].
  apply orb_false_iff in Hphone as [Hnet Hhosted].
  assert (forall o, jidToE164 jid o = mret None) as Hdecode.
  { intros o. apply jidToE164_unmatched.
    - destruct (match_jid PHONE_DOMAINS jid) as [d|] eqn:H; [|done].
      apply match_jid_endsWith in H as (domain & Hin & Hend).
      unfold PHONE_DOMAINS in Hin.
      repeat (apply elem_of_cons in Hin as [->|Hin]);
        [change ("@" +:+ "s.whatsapp.net") with "@s.whatsapp.net" in Hend; congruence
        |change ("@" +:+ "hosted") with "@hosted" in Hend; congruence|].
      by apply elem_of_nil in Hin.
    - destruct (match_jid LID_DOMAINS jid) as [d|] eqn:H; [|done].
      apply lid_has_lid_suffix in H. congruence. }
  split; [apply Hdecode|].
  destruct (decide (jid = EmptyString)) as [->|Hne]; [done|].
  rewrite (resolve_no_fallback jid ropts None); rewrite ?Hdecode; auto.
Qed.

Lemma unknown_suffix_is_null_witness :
  jidToE164 (E := Sample.world) "120363041234567890@g.us" (Some Sample.options)
  = mret None
  /\ resolveJidToE164 (E := Sample.world) (Some "120363041234567890@g.us")
       (Some (Sample.with_lookup (Some Sample.answering)))
     = mret None.
Proof.
  apply (unknown_suffix_is_null (E := Sample.world) "120363041234567890@g.us").
  reflexivity.
Defined.

(** ** The resolver *)

Section ResolveMore.
Context `{E : Env}.

Lemma lookup_calls_decode (jid : string) (opts : option JidToE164Options) :
  lookup_calls (jidToE164 jid opts) = [].
Proof.
  destruct (match_jid LID_DOMAINS jid) as [lid|] eqn:Hlid.
  - rewrite (jidToE164_lid jid lid) by done. unfold lookup_calls.
    cbn [trace]. rewrite omap_app, lookup_calls_reads.
    destruct (truthy _); [done|].
    by destruct (default shouldLogVerbose (opts ≫= logMissing)).
  - destruct (match_jid PHONE_DOMAINS jid) as [digits|] eqn:Hphone.
    + by rewrite (jidToE164_phone jid digits).
    + by rewrite jidToE164_unmatched.
Qed.

Lemma decode_miss_is_null (jid : string) (opts : option JidToE164Options)
    (direct : option string) :
  outcome (jidToE164 jid opts) = Ok direct -> truthy direct = false ->
  direct = None.
Proof.
  intros Hdirect Hfalse.
  destruct (jidToE164_total jid opts) as (r & Hr & [->|Htrue]); congruence.
Qed.

Lemma jidToE164_empty (opts : option JidToE164Options) :
  jidToE164 EmptyString opts = mret None.
Proof. reflexivity. Qed.

End ResolveMore.

(** X15.  A JID that decodes locally is resolved to that number by the decode
    alone: the lookup capability is not called, whatever it would answer. *)
Theorem resolve_local_first `{E : Env} (jid phone : string)
    (opts : option ResolveOptions) :
  outcome (jidToE164 jid (base <$> opts)) = Ok (Some phone) ->
  resolveJidToE164 (Some jid) opts = jidToE164 jid (base <$> opts)
  /\ lookup_calls (resolveJidToE164 (Some jid) opts) = [].
Proof.
  intros Hdirect.
  assert (jid <> EmptyString) as Hne.
  { intros ->. by rewrite jidToE164_empty in Hdirect. }
  assert (truthy (Some phone) = true) as Htrue.
  { destruct (jidToE164_total jid (base <$> opts)) as (r & Hr & [->|Htrue]);
      congruence. }
  rewrite (resolve_direct_hit jid opts (Some phone)) by done.
  split; [done|apply lookup_calls_decode].
Qed.

Lemma resolve_local_first_witness :
  resolveJidToE164 (E := Sample.world) (Some "55512@lid")
    (Some (Sample.with_lookup (Some Sample.answering)))
  = jidToE164 (E := Sample.world) "55512@lid" (Some Sample.options)
  /\ lookup_calls (resolveJidToE164 (E := Sample.world) (Some "55512@lid")
                     (Some (Sample.with_lookup (Some Sample.answering))))
     = [].
Proof.
  apply (resolve_local_first (E := Sample.world) "55512@lid" "+15551234567"
           (Some (Sample.with_lookup (Some Sample.answering)))).
  vm_compute. reflexivity.
Defined.

(** X16.  The resolver calls the lookup capability at most once, and with the
    JID it was given.  It calls it exactly when the JID is not empty, its
    decode gave no number, it ends in [@lid] or [@hosted.lid] and a capability
    was supplied: the JID need not have the form of a LID, any string with
    that ending is passed on. *)
Theorem resolve_lookup_calls `{E : Env} (jid : string)
    (opts : option ResolveOptions) (direct : option string) :
  outcome (jidToE164 jid (base <$> opts)) = Ok direct ->
  lookup_calls (resolveJidToE164 (Some jid) opts)
  = if negb (String.eqb jid EmptyString) && negb (truthy direct)
       && test_lid_suffix jid && has_lookup opts
    then [jid] else [].
Proof.
  intros Hdirect.
  destruct (String.eqb_spec jid EmptyString) as [->|Hne]; [done|].
  destruct (truthy direct) eqn:Htruthy.
  { rewrite (resolve_direct_hit jid opts direct) by done.
    apply lookup_calls_decode. }
  cbn [negb andb]. unfold has_lookup.
  pose proof (lookup_calls_decode jid (base <$> opts)) as Hnone.
  unfold lookup_calls in *.
  destruct (test_lid_suffix jid) eqn:Hlid;
    [|by rewrite (resolve_no_fallback jid opts direct) by auto].
  destruct (lookup_of opts) as [lookup|] eqn:Hlookup;
    [|by rewrite (resolve_no_fallback jid opts direct) by auto].
  cbn [andb].
  destruct (lookup jid) as [pnJid|e] eqn:Hanswer.
  - destruct (truthy pnJid) eqn:Hpn.
    + destruct pnJid as [pn|]; [|done].
      cbn [truthy] in Hpn. apply negb_true_iff, String.eqb_neq in Hpn.
      rewrite (resolve_lookup_answers jid pn opts direct lookup) by done.
      pose proof (lookup_calls_decode pn (base <$> opts)) as Hpn'.
      unfold lookup_calls in Hpn'.
      cbn [trace]. rewrite omap_app, Hnone.
      change (CallLookup jid :: trace (jidToE164 pn (base <$> opts)))
        with ([CallLookup jid] ++ trace (jidToE164 pn (base <$> opts))).
      by rewrite omap_app, Hpn'.
    + rewrite (resolve_lookup_nothing jid opts direct pnJid lookup) by done.
      cbn [trace]. by rewrite omap_app, Hnone.
  - rewrite (resolve_lookup_throws jid opts direct lookup e) by done.
    cbn [trace]. rewrite omap_app, Hnone.
    destruct shouldLogVerbose; [|done]. by destruct (error_text e).
Qed.

Lemma resolve_lookup_calls_witness :
  lookup_calls (resolveJidToE164 (E := Sample.world) (Some "family@lid")
                  (Some (Sample.with_lookup (Some Sample.answering))))
  = ["family@lid"].
Proof.
  apply (resolve_lookup_calls (E := Sample.world) "family@lid"
           (Some (Sample.with_lookup (Some Sample.answering))) None).
  reflexivity.
Defined.

(** X17.  Without a lookup capability the resolver is the decode: the same
    result, the same files read, the same log lines. *)
Theorem resolve_without_capability `{E : Env} (jid : string)
    (opts : option ResolveOptions) :
  lookup_of opts = None ->
  resolveJidToE164 (Some jid) opts = jidToE164 jid (base <$> opts).
Proof.
  intros Hnone.
  destruct (decide (jid = EmptyString)) as [->|Hne]; [done|].
  destruct (jidToE164_total jid (base <$> opts)) as (direct & Hdirect & _).
  destruct (truthy direct) eqn:Htruthy.
  - by apply (resolve_direct_hit jid opts direct).
  - rewrite (resolve_no_fallback jid opts direct) by auto.
    rewrite (decode_miss_is_null jid _ direct Hdirect Htruthy) in Hdirect.
    rewrite <- Hdirect. apply run_eta.
Qed.

Lemma resolve_without_capability_witness :
  resolveJidToE164 (E := Sample.world) (Some "55512:3@lid")
    (Some (Sample.with_lookup None))
  = jidToE164 (E := Sample.world) "55512:3@lid" (Some Sample.options).
Proof.
  apply (resolve_without_capability (E := Sample.world) "55512:3@lid"
           (Some (Sample.with_lookup None))).
  reflexivity.
Defined.

(** X18.  A capability that answers with nothing ([null], or the empty
    string) gives [null]: the resolver has called it once and decodes nothing
    more. *)
Theorem resolve_empty_answer `{E : Env} (jid : string)
    (opts : option ResolveOptions) (lookup : string -> Result (option string))
    (pnJid : option string) :
  outcome (jidToE164 jid (base <$> opts)) = Ok None ->
  test_lid_suffix jid = true ->
  lookup_of opts = Some lookup ->
  lookup jid = Ok pnJid ->
  pnJid = None \/ pnJid = Some EmptyString ->
  resolveJidToE164 (Some jid) opts
  = MkRun (trace (jidToE164 jid (base <$> opts)) ++ [CallLookup jid]) (Ok None).
Proof.
  intros Hdirect Hlid Hlookup Hanswer Hempty.
  apply (resolve_lookup_nothing jid opts None pnJid lookup); try done.
  - intros ->. discriminate.
  - by destruct Hempty as [->| ->].
Qed.

Lemma resolve_empty_answer_witness :
  resolveJidToE164 (E := Sample.world) (Some "77001@lid")
    (Some (Sample.with_lookup (Some (fun _ => Ok (Some EmptyString)))))
  = MkRun (trace (jidToE164 (E := Sample.world) "77001@lid"
                    (Some Sample.options))
           ++ [CallLookup "77001@lid"])
          (Ok None).
Proof.
  apply (resolve_empty_answer (E := Sample.world) "77001@lid"
           (Some (Sample.with_lookup (Some (fun _ => Ok (Some EmptyString)))))
           (fun _ => Ok (Some EmptyString)) (Some EmptyString));
    [vm_compute; reflexivity|reflexivity|reflexivity|reflexivity|by right].
Defined.

(** X19.  Of a capability whose promise settles: the resolver's promise
    rejects in one case only, a capability that was called and failed while
    the verbose switch is on, with a value whose conversion to a string throws;
    it then rejects with what that conversion threw.  In every other case it
    is fulfilled, and with [null] or a string that is not empty. *)
Theorem resolve_result `{E : Env} (jid : option string)
    (opts : option ResolveOptions) :
  (forall thrown,
     outcome (resolveJidToE164 jid opts) = Throw thrown
     <-> exists j lookup err,
           jid = Some j /\ j <> EmptyString
           /\ outcome (jidToE164 j (base <$> opts)) = Ok None
           /\ test_lid_suffix j = true
           /\ lookup_of opts = Some lookup
           /\ lookup j = Throw err
           /\ shouldLogVerbose = true
           /\ error_text err = Throw thrown)
  /\ (forall r,
        outcome (resolveJidToE164 jid opts) = Ok r ->
        r = None \/ exists phone, r = Some phone /\ phone <> EmptyString).
Proof.
  assert (forall j r, outcome (jidToE164 j (base <$> opts)) = Ok r ->
            r = None \/ exists phone, r = Some phone /\ phone <> EmptyString)
    as Hshape.
  { intros j r Hr.
    destruct (jidToE164_total j (base <$> opts)) as (r' & Hr' & [->|Htrue]).
    - left. congruence.
    - right. assert (r = r') as -> by congruence.
      destruct r' as [phone|]; [|done]. exists phone. split; [done|].
      by apply negb_true_iff, String.eqb_neq in Htrue. }
  assert (forall thrown : JsError,
            (exists (j : string) (lookup : string -> Result (option string))
                    (err : JsError),
               jid = Some j /\ j <> EmptyString
               /\ outcome (jidToE164 j (base <$> opts)) = Ok None
               /\ test_lid_suffix j = true
               /\ lookup_of opts = Some lookup
               /\ lookup j = Throw err
               /\ shouldLogVerbose = true
               /\ error_text err = Throw thrown) ->
            outcome (resolveJidToE164 jid opts) = Throw thrown) as Hback.
  { intros thrown (j & lookup & err & -> & Hj & Hd & Hl & Hlk & Herr & Hv & Ht).
    rewrite (resolve_lookup_throws j opts None lookup err) by done.
    cbn [outcome]. by rewrite Hv, Ht. }
  destruct jid as [jid|];
    [|split; [intros thrown; split; [done|apply Hback]|intros r [= <-]; auto]].
  destruct (decide (jid = EmptyString)) as [->|Hne];
    [split; [intros thrown; split; [done|apply Hback]|intros r [= <-]; auto]|].
  destruct (jidToE164_total jid (base <$> opts)) as (direct & Hdirect & _).
  destruct (truthy direct) eqn:Htruthy.
  { rewrite (resolve_direct_hit jid opts direct) by done. rewrite Hdirect.
    split; [intros thrown; split; [done|]|intros r [= <-]; eauto].
    intros H. apply Hback in H.
    rewrite (resolve_direct_hit jid opts direct) in H by done. congruence. }
  pose proof (decode_miss_is_null jid _ direct Hdirect Htruthy) as ->.
  assert (forall run : Run (option string),
            resolveJidToE164 (Some jid) opts = run -> outcome run = Ok None ->
            (forall thrown,
               outcome (resolveJidToE164 (Some jid) opts) = Throw thrown
               <-> exists j lookup err,
                     Some jid = Some j /\ j <> EmptyString
                     /\ outcome (jidToE164 j (base <$> opts)) = Ok None
                     /\ test_lid_suffix j = true
                     /\ lookup_of opts = Some lookup
                     /\ lookup j = Throw err
                     /\ shouldLogVerbose = true
                     /\ error_text err = Throw thrown)
            /\ (forall r,
                  outcome (resolveJidToE164 (Some jid) opts) = Ok r ->
                  r = None \/ exists phone, r = Some phone /\ phone <> EmptyString))
    as Hnull.
  { intros run Hrun Hout. split.
    - intros thrown. split.
      + rewrite Hrun, Hout. done.
      + intros H. apply Hback in H. rewrite Hrun, Hout in H. done.
    - intros r. rewrite Hrun, Hout. intros [= <-]. auto. }
  destruct (test_lid_suffix jid) eqn:Hlid;
    [|eapply Hnull; [by apply (resolve_no_fallback jid opts None); auto|done]].
  destruct (lookup_of opts) as [lookup|] eqn:Hlookup;
    [|eapply Hnull; [by apply (resolve_no_fallback jid opts None); auto|done]].
  destruct (lookup jid) as [pnJid|e] eqn:Hanswer.
  - destruct (truthy pnJid) eqn:Hpn;
      [|eapply Hnull;
         [by apply (resolve_lookup_nothing jid opts None pnJid lookup)|done]].
    destruct pnJid as [pn|]; [|done].
    cbn [truthy] in Hpn. apply negb_true_iff, String.eqb_neq in Hpn.
    rewrite (resolve_lookup_answers jid pn opts None lookup) by done.
    cbn [outcome].
    destruct (jidToE164_total pn (base <$> opts)) as (r & Hr & _). rewrite Hr.
    split; [|intros r' [= <-]; eauto].
    intros thrown. split; [done|].
    intros (j & lookup' & err & [= <-] & _ & _ & _ & Hlk & Herr & _).
    congruence.
  - rewrite (resolve_lookup_throws jid opts None lookup e) by done.
    cbn [outcome]. split.
    + intros thrown. split.
      * destruct shouldLogVerbose eqn:Hv; [|done].
        destruct (error_text e) as [text|thrown'] eqn:Ht; [done|].
        intros [= <-]. by exists jid, lookup, e.
      * intros (j & lookup' & err & [= <-] & _ & _ & _ & Hlk & Herr & Hv & Ht).
        assert (lookup' = lookup) as -> by congruence.
        assert (err = e) as -> by congruence.
        by rewrite Hv, Ht.
    + intros r. destruct shouldLogVerbose; [|intros [= <-]; auto].
      destruct (error_text e); [intros [= <-]; auto|done].
Qed.

(** X20.  The shapes the module tells apart do not overlap.  A JID the LID
    pattern matches is matched by no phone pattern and passes the resolver's
    test of the LID suffix, so the fallback is open to it; a JID a phone
    pattern matches is matched by no LID pattern and fails that test.  The
    group either pattern captures is a digit sequence. *)
Theorem jid_shapes_disjoint (jid digits : string) :
  (match_jid LID_DOMAINS jid = Some digits ->
   match_jid PHONE_DOMAINS jid = None /\ test_lid_suffix jid = true
   /\ Js.digit_string digits = true)
  /\ (match_jid PHONE_DOMAINS jid = Some digits ->
      match_jid LID_DOMAINS jid = None /\ test_lid_suffix jid = false
      /\ Js.digit_string digits = true).
Proof.
  split; intros H.
  - split; [by eapply lid_is_no_phone|]. split; [by eapply lid_has_lid_suffix|].
    apply match_jid_sound in H. by destruct H.
  - split; [by eapply phone_is_no_lid|]. split.
    + apply match_jid_sound, JidShape_tail in H as (front & domain & Hin & ->).
      unfold test_lid_suffix, Js.endsWith, PHONE_DOMAINS in *.
      rewrite !rev_sapp.
      repeat (apply elem_of_cons in Hin as [->|Hin]); [reflexivity..|].
      by apply elem_of_nil in Hin.
    + apply match_jid_sound in H. by destruct H.
Qed.

(** X21.  When the lookup capability fails, what the resolver does next is
    decided by the verbose switch, and the call's [logMissing] has no say in
    it.  Switch off: nothing is logged and the result is [null].  Switch on:
    the failure is converted to a string; if that gives a text, one line that
    names the JID and the text is logged and the result is [null]; if the
    conversion throws, no line is logged and the resolver's promise rejects
    with what it threw. *)
Theorem resolve_failure_log `{E : Env} (jid : string)
    (opts : option ResolveOptions) (lookup : string -> Result (option string))
    (e : JsError) :
  outcome (jidToE164 jid (base <$> opts)) = Ok None ->
  test_lid_suffix jid = true ->
  lookup_of opts = Some lookup ->
  lookup jid = Throw e ->
  log_lines (resolveJidToE164 (Some jid) opts)
  = log_lines (jidToE164 jid (base <$> opts))
    ++ (if shouldLogVerbose
        then match error_text e with
             | Ok text =>
                 ["LID mapping lookup failed for " +:+ jid +:+ ": " +:+ text]
             | Throw _ => []
             end
        else [])
  /\ outcome (resolveJidToE164 (Some jid) opts)
     = (if shouldLogVerbose
        then match error_text e with
             | Ok _ => Ok None
             | Throw thrown => Throw thrown
             end
        else Ok None).
Proof.
  intros Hdirect Hlid Hlookup Hthrow.
  rewrite (resolve_lookup_throws jid opts None lookup e); try done.
  - split; [|reflexivity].
    unfold log_lines. cbn [trace]. rewrite omap_app. f_equal.
    destruct shouldLogVerbose; [|done]. by destruct (error_text e).
  - intros ->. discriminate.
Qed.

Lemma resolve_failure_log_witness :
  (log_lines (resolveJidToE164 (E := Sample.world) (Some "77001@lid")
                (Some {| base := {| authDir := None; lidMappingDirs := None;
                                    logMissing := Some false |};
                         lidLookup := Some {| getPNForLID := Some Sample.failing |} |}))
   = ["LID mapping lookup failed for 77001@lid: timed out"]
   /\ outcome (resolveJidToE164 (E := Sample.world) (Some "77001@lid")
                 (Some {| base := {| authDir := None; lidMappingDirs := None;
                                     logMissing := Some false |};
                          lidLookup := Some {| getPNForLID := Some Sample.failing |} |}))
      = Ok None)
  /\ (log_lines (resolveJidToE164 (E := Sample.world) (Some "77001@lid")
                   (Some {| base := {| authDir := None; lidMappingDirs := None;
                                       logMissing := Some false |};
                            lidLookup :=
                              Some {| getPNForLID := Some Rejections.opaque |} |}))
      = []
      /\ outcome (resolveJidToE164 (E := Sample.world) (Some "77001@lid")
                    (Some {| base := {| authDir := None; lidMappingDirs := None;
                                        logMissing := Some false |};
                             lidLookup :=
                               Some {| getPNForLID := Some Rejections.opaque |} |}))
         = Throw TypeError).
Proof.
  split.
  - apply (resolve_failure_log (E := Sample.world) "77001@lid"
             (Some {| base := {| authDir := None; lidMappingDirs := None;
                                 logMissing := Some false |};
                      lidLookup := Some {| getPNForLID := Some Sample.failing |} |})
             Sample.failing (Failure "timed out"));
      [vm_compute; reflexivity|reflexivity..].
  - apply (resolve_failure_log (E := Sample.world) "77001@lid"
             (Some {| base := {| authDir := None; lidMappingDirs := None;
                                 logMissing := Some false |};
                      lidLookup := Some {| getPNForLID := Some Rejections.opaque |} |})
             Rejections.opaque (Unprintable TypeError));
      [vm_compute; reflexivity|reflexivity..].
Defined.

(** X22.  Where the OAuth directory and the default credentials directory
    resolve to one path, a call without options has that one directory to
    try, and a lookup that finds nothing reads one file. *)
Theorem resolveLidMappingDirs_shared_store `{E : Env} (lid : string) :
  resolveOAuthDir <> EmptyString ->
  resolveUserPath resolveOAuthDir
  = resolveUserPath (path_join CONFIG_DIR "credentials") ->
  resolveLidMappingDirs None = [resolveUserPath resolveOAuthDir]
  /\ (mapping_at (path_join (resolveUserPath resolveOAuthDir) (mappingFilename lid))
      = None ->
      readLidReverseMapping lid None
      = MkRun [ReadFile (path_join (resolveUserPath resolveOAuthDir)
                           (mappingFilename lid))]
              (Ok None)).
Proof.
  intros Hoauth Hsame.
  assert (resolveLidMappingDirs None = [resolveUserPath resolveOAuthDir]) as Hdirs.
  { rewrite resolveLidMappingDirs_priority. unfold priority_dirs, candidate_dirs.
    simpl. rewrite filter_cons_True by done.
    rewrite filter_cons_True by apply path_join_nonempty.
    rewrite filter_nil. simpl. rewrite <- Hsame.
    by rewrite filter_cons_False by naive_solver. }
  split; [done|]. intros Hmiss.
  rewrite readLidReverseMapping_run, Hdirs. simpl. by rewrite Hmiss.
Qed.

Lemma resolveLidMappingDirs_shared_store_witness :
  resolveLidMappingDirs (E := DefaultInstall.world) None = ["/etc/claw/credentials"]
  /\ readLidReverseMapping (E := DefaultInstall.world) "55512" None
     = MkRun [ReadFile "/etc/claw/credentials/lid-mapping-55512_reverse.json"]
             (Ok None).
Proof.
  destruct (resolveLidMappingDirs_shared_store (E := DefaultInstall.world) "55512")
    as [Hdirs Hread]; [discriminate|reflexivity|].
  split; [exact Hdirs|]. apply Hread. reflexivity.
Defined.
